(** * poker.cards: card codec and hand evaluator

    A shallow embedding of [src/javascript/common/cards.js].

    JavaScript numbers are IEEE doubles, exact on integers of magnitude
    below [2^53].  Numbers are embedded as [Z]: number arguments are taken to
    be integers, and table entries to be integers small enough for the
    product of five rank primes to stay in the exact range (with primes up
    to 41 it is below [2^27]).  [%] is the truncating remainder [Z.rem],
    [Math.floor(x / d)] is the floor division [Z.div], and the 32-bit
    operators go through [ToInt32] and [ToUint32] explicitly.  [undefined]
    and [NaN] are embedded as [None] in [option Z]: the code only ever feeds
    them to arithmetic, comparisons and truthiness tests, where the two
    behave alike.  Loops whose exit depends on the data take fuel. *)

From Stdlib Require Import ZArith List String Ascii Bool Lia Permutation.
From Stdlib Require Import DecimalString DecimalPos DecimalZ.
Import ListNotations.

Local Open Scope string_scope.
Local Open Scope list_scope.
Local Open Scope Z_scope.

(** ** JavaScript primitives used by the code *)

Module Js.

Definition two32 : Z := 4294967296.
Definition two31 : Z := 2147483648.

(** [ToUint32] and [ToInt32] on an integer. *)
Definition toUint32 (z : Z) : Z := z mod two32.
Definition signed (u : Z) : Z := if u <? two31 then u else u - two32.
Definition toInt32 (z : Z) : Z := signed (toUint32 z).

(** [a << n], [a >>> n], [a | b], [a ^ b], [a & b]. *)
Definition shl (a n : Z) : Z :=
  toInt32 (Z.shiftl (toInt32 a) (toUint32 n mod 32)).
Definition ushr (a n : Z) : Z :=
  Z.shiftr (toUint32 a) (toUint32 n mod 32).
Definition bor (a b : Z) : Z := toInt32 (Z.lor (toInt32 a) (toInt32 b)).
Definition bxor (a b : Z) : Z := toInt32 (Z.lxor (toInt32 a) (toInt32 b)).
Definition band (a b : Z) : Z := toInt32 (Z.land (toInt32 a) (toInt32 b)).

(** Arithmetic with a possibly [undefined]/[NaN] operand. *)
Definition lift2 (f : Z -> Z -> Z) (a b : option Z) : option Z :=
  match a, b with Some x, Some y => Some (f x y) | _, _ => None end.
Definition add := lift2 Z.add.
Definition sub := lift2 Z.sub.
Definition mul := lift2 Z.mul.
Definition rem := lift2 Z.rem.

(** [a != b] on numbers: [NaN] differs from everything. *)
Definition neq (a b : option Z) : bool :=
  match a, b with Some x, Some y => negb (x =? y) | _, _ => true end.

(** [a < b] on numbers: false as soon as an operand is [NaN]. *)
Definition lt (a b : option Z) : bool :=
  match a, b with Some x, Some y => x <? y | _, _ => false end.

(** An operand of a 32-bit operator: [NaN] and [undefined] convert to 0. *)
Definition int (v : option Z) : Z :=
  match v with Some z => z | None => 0 end.

(** Truthiness of a number or [undefined]. *)
Definition truthy (v : option Z) : bool :=
  match v with Some z => negb (z =? 0) | None => false end.

(** [n.toString()] of an integer. *)
Definition numToString (n : Z) : string := NilZero.string_of_int (Z.to_int n).

(** [parseInt(s)] of a decimal numeral; the code calls it on one of the
    characters '2'..'9' only, so the [NaN] case is never reached. *)
Definition parseInt (s : option string) : Z :=
  match s with
  | Some s =>
      match NilZero.int_of_string s with
      | Some d => Z.of_int d
      | None => 0
      end
  | None => 0
  end.

(** [s[i]]: a one-character string, or [undefined]. *)
Definition charAt (s : string) (i : nat) : option string :=
  match String.get i s with
  | Some c => Some (String c EmptyString)
  | None => None
  end.

(** String concatenation [a + b] where [a] may be [undefined]. *)
Definition strAdd (a : option string) (b : string) : string :=
  match a with
  | Some x => String.append x b
  | None => String.append "undefined" b
  end.

(** [a.indexOf(x) >= 0] on an array of strings. *)
Definition contains (a : list string) (x : option string) : bool :=
  match x with
  | Some c => existsb (String.eqb c) a
  | None => false
  end.

End Js.

(** ** Failures

    [goog.asserts.assert] and [goog.asserts.fail] raise an assertion error.
    One constructor per assertion site of the file, carrying what the message
    is built from. *)

Inductive error : Type :=
| MalformedLength                      (* fromString: odd length *)
| UnknownSuit (c : option string)      (* 'Unknown suit: ' + cardStr[0] *)
| WrongRank (c : option string)        (* 'Wrong rank: ' + cardStr[1] *)
| WrongRankNum (rankNum : Z)           (* 'Wrong rank: ' + rankNum.toString() *)
| WrongCardCount (n : nat).            (* 'The number of cards should be 5 to 7: ' *)

(** A call returns, raises, or is still looping when the fuel is spent. *)
Inductive outcome (A : Type) : Type :=
| Return (a : A)
| Throw (e : error)
| OutOfFuel.

Arguments Return {A} a.
Arguments Throw {A} e.
Arguments OutOfFuel {A}.

Definition bind {A B : Type} (m : outcome A) (k : A -> outcome B) : outcome B :=
  match m with
  | Return a => k a
  | Throw e => Throw e
  | OutOfFuel => OutOfFuel
  end.

Notation "x <- m ;; k" := (bind m (fun x => k))
  (at level 61, m at next level, right associativity).

(** ** The card codec *)

(** [poker.cards.Suit] *)
Definition SPADE : string := "s".
Definition HEART : string := "h".
Definition DIAMOND : string := "d".
Definition CLUB : string := "c".

(** [poker.cards.Ranks], an object used as a map from string keys. *)
Definition Ranks (key : string) : option string :=
  if String.eqb key "10" then Some "T"
  else if String.eqb key "11" then Some "J"
  else if String.eqb key "12" then Some "Q"
  else if String.eqb key "13" then Some "K"
  else if String.eqb key "1" then Some "A"
  else None.

Definition eqs (a : option string) (b : string) : bool :=
  match a with Some x => String.eqb x b | None => false end.

(** [poker.cards.fromStringSingle_] *)
Definition fromStringSingle_ (cardStr : string) : outcome Z :=
  let c0 := Js.charAt cardStr 0 in
  let c1 := Js.charAt cardStr 1 in
  suit <- (if eqs c0 SPADE then Return 0
           else if eqs c0 HEART then Return 1
           else if eqs c0 DIAMOND then Return 2
           else if eqs c0 CLUB then Return 3
           else Throw (UnknownSuit c0)) ;;
  rank <- (if Js.contains ["2"; "3"; "4"; "5"; "6"; "7"; "8"; "9"] c1
           then Return (Js.parseInt c1 - 2)
           else if eqs c1 "T" then Return 8
           else if eqs c1 "J" then Return 9
           else if eqs c1 "Q" then Return 10
           else if eqs c1 "K" then Return 11
           else if eqs c1 "A" then Return 12
           else Throw (WrongRank c1)) ;;
  Return (suit + 4 * rank + 1).

(** [poker.cards.toStringSingle_]; the suit [switch] has no [default], so
    [suit] stays [undefined] when no case matches. *)
Definition toStringSingle_ (cardNum : Z) : outcome string :=
  let suit :=
    match Z.rem (cardNum - 1) 4 with
    | 0 => Some SPADE
    | 1 => Some HEART
    | 2 => Some DIAMOND
    | 3 => Some CLUB
    | _ => None
    end in
  let rankNum := (cardNum - 1) / 4 + 2 in
  let rankNum := if rankNum =? 14 then 1 else rankNum in
  if (2 <=? rankNum) && (rankNum <=? 9) then
    Return (Js.strAdd suit (Js.numToString rankNum))
  else
    match Ranks (Js.numToString rankNum) with
    | Some rank =>
        if negb (String.eqb rank "") then Return (Js.strAdd suit rank)
        else Throw (WrongRankNum rankNum)
    | None => Throw (WrongRankNum rankNum)
    end.

(** [poker.cards.fromString]: the [for] loop runs for
    [i = 0 .. cardsStr.length / 2 - 1]. *)
Definition fromString (cardsStr : string) : outcome Z :=
  if Nat.eqb (String.length cardsStr mod 2) 0 then
    fold_left
      (fun acc i =>
         cardsNum <- acc ;;
         c <- fromStringSingle_ (String.substring (2 * i) 2 cardsStr) ;;
         Return (cardsNum * 53 + c))
      (seq 0 (String.length cardsStr / 2))
      (Return 0)
  else Throw MalformedLength.

(** The loop of [poker.cards.toString]:
    [for (cards = cardsNum; cards != 0; cards = Math.floor(cards / 53))]. *)
Fixpoint toString_loop (fuel : nat) (cards : Z) (strs : list string)
  : outcome (list string) :=
  if cards =? 0 then Return strs
  else match fuel with
       | O => OutOfFuel
       | S fuel' =>
           s <- toStringSingle_ (Z.rem cards 53) ;;
           toString_loop fuel' (cards / 53) (strs ++ [s])
       end.

(** [poker.cards.toString] *)
Definition toString (fuel : nat) (cardsNum : Z) : outcome string :=
  strs <- toString_loop fuel cardsNum [] ;;
  Return (String.concat "" (rev strs)).

(** ** The hand evaluator *)

(** An argument of [evalHand]: a number or a string. *)
Inductive arg : Type :=
| ANum (n : Z)
| AStr (s : string).

(** Truthiness of the optional second argument ([None]: not passed). *)
Definition given (a : option arg) : bool :=
  match a with
  | None => false
  | Some (ANum n) => negb (n =? 0)
  | Some (AStr s) => negb (String.eqb s "")
  end.

(** [typeof x == 'number' ? x : poker.cards.fromString(x)] *)
Definition cardsNumOf (a : arg) : outcome Z :=
  match a with
  | ANum n => Return n
  | AStr s => fromString s
  end.

(** [for (...; cardsNum != 0; cardsNum = Math.floor(cardsNum / 53))
      allCards.push(cardsNum % 53);] *)
Fixpoint pushCards (fuel : nat) (cardsNum : Z) (allCards : list Z)
  : outcome (list Z) :=
  if cardsNum =? 0 then Return allCards
  else match fuel with
       | O => OutOfFuel
       | S fuel' =>
           pushCards fuel' (cardsNum / 53) (allCards ++ [Z.rem cardsNum 53])
       end.

(** Lines 174-186 of [evalHand]: the array [allCards]. *)
Definition allCardsOf (fuel : nat) (cardsNumOrStr : arg)
    (opt_otherCardsNumOrStr : option arg) : outcome (list Z) :=
  cardsNum <- cardsNumOf cardsNumOrStr ;;
  allCards <- pushCards fuel cardsNum [] ;;
  match opt_otherCardsNumOrStr with
  | Some other =>
      if given opt_otherCardsNumOrStr then
        cardsNum <- cardsNumOf other ;;
        pushCards fuel cardsNum allCards
      else Return allCards
  | None => Return allCards
  end.

(** [if (hand < bestHand) bestHand = hand;] *)
Definition keepBest (bestHand : Z) (hand : option Z) : Z :=
  if Js.lt hand (Some bestHand) then Js.int hand else bestHand.

(** The inner loop building [cards]: the entries of [allCards] at the
    indices below [n] that pass [keep], in order.  The index is within the
    array in both callers. *)
Definition pick (n : nat) (keep : nat -> bool) (allCards : list Z) : list Z :=
  map (fun k => nth k allCards 0) (filter keep (seq 0 n)).

Section Evaluator.

(** [poker.hashtables], which is not part of the sources at hand: the four
    tables are parameters, a lookup yielding [None] for [undefined]. *)
Variable UNIQUE5 : Z -> option Z.
Variable RANK_PRIMES : Z -> option Z.
Variable PAIR : Z -> option Z.
Variable PAIR_ADJUST : Z -> option Z.

(** The shift count of [1 << (cards[i] - 1) / 4]: the quotient is not
    floored, the shift operator truncates it. *)
Definition rankShift (c : option Z) : Z :=
  match c with
  | Some c => Z.quot (c - 1) 4
  | None => 0
  end.

(** First loop of [eval5Cards_]. *)
Definition rankBitsOf (cards : list Z) : Z :=
  fold_left
    (fun rankBits i => Js.bor rankBits (Js.shl 1 (rankShift (nth_error cards i))))
    (seq 0 5) 0.

(** The flush loop of [eval5Cards_]; [break] makes it a conjunction. *)
Definition flushOf (cards : list Z) : bool :=
  let suitOfFirstCard := Js.rem (nth_error cards 0) (Some 4) in
  forallb
    (fun i => negb (Js.neq suitOfFirstCard (Js.rem (nth_error cards i) (Some 4))))
    (seq 1 4).

(** [poker.hashtables.RANK_PRIMES[Math.floor((cards[i] - 1) / 4)]] *)
Definition rankPrime (c : option Z) : option Z :=
  match c with
  | Some c => RANK_PRIMES ((c - 1) / 4)
  | None => None
  end.

(** The product loop of [eval5Cards_]. *)
Definition productOf (cards : list Z) : option Z :=
  fold_left
    (fun product i => Js.mul product (rankPrime (nth_error cards i)))
    (seq 0 5) (Some 1).

(** The hash of the product and the final lookup. *)
Definition pairLookup (product : option Z) : option Z :=
  let product := Js.add product (Some 3910838837) in
  let product := Js.bxor (Js.int product) (Js.ushr (Js.int product) 16) in
  let product := product + Js.shl product 8 in
  let product := Js.bxor product (Js.ushr product 4) in
  let a := Js.ushr (product + Js.shl product 2) 19 in
  let b := Js.band (Js.ushr product 8) 511 in
  PAIR (Js.bxor a (Js.int (PAIR_ADJUST b))).

(** [poker.cards.eval5Cards_] *)
Definition eval5Cards_ (cards : list Z) : option Z :=
  let rankBits := rankBitsOf cards in
  let unique5 := UNIQUE5 rankBits in
  if Js.truthy unique5 then
    if flushOf cards then
      if Js.lt unique5 (Some 1610) then Js.sub unique5 (Some 1599)
      else Js.sub unique5 (Some 5863)
    else unique5
  else pairLookup (productOf cards).

(** The six-card branch of [evalHand]. *)
Definition best6 (allCards : list Z) : Z :=
  fold_left
    (fun bestHand i =>
       keepBest bestHand
         (eval5Cards_ (pick 6 (fun j => negb (Nat.eqb j i)) allCards)))
    (seq 0 6) 9999.

(** The seven-card branch of [evalHand]: [j] runs from [i + 1] to [6]. *)
Definition best7 (allCards : list Z) : Z :=
  fold_left
    (fun bestHand i =>
       fold_left
         (fun bestHand j =>
            keepBest bestHand
              (eval5Cards_
                 (pick 7 (fun k => negb (Nat.eqb k i) && negb (Nat.eqb k j))
                    allCards)))
         (seq (i + 1) (7 - (i + 1))) bestHand)
    (seq 0 6) 9999.

(** Lines 187-225 of [evalHand]: the dispatch on [allCards.length]. *)
Definition evalCards (allCards : list Z) : outcome (option Z) :=
  if Nat.eqb (List.length allCards) 5 then Return (eval5Cards_ allCards)
  else if Nat.eqb (List.length allCards) 6 then Return (Some (best6 allCards))
  else if Nat.eqb (List.length allCards) 7 then Return (Some (best7 allCards))
  else Throw (WrongCardCount (List.length allCards)).

(** [poker.cards.evalHand] *)
Definition evalHand (fuel : nat) (cardsNumOrStr : arg)
    (opt_otherCardsNumOrStr : option arg) : outcome (option Z) :=
  allCards <- allCardsOf fuel cardsNumOrStr opt_otherCardsNumOrStr ;;
  evalCards allCards.

End Evaluator.

(** ** Definitions the statements are written with *)

(** The 52 card strings of the documented format: a suit character followed
    by a rank character. *)
Definition suitChars : list string := ["s"; "h"; "d"; "c"].
Definition rankChars : list string :=
  ["2"; "3"; "4"; "5"; "6"; "7"; "8"; "9"; "T"; "J"; "Q"; "K"; "A"].
Definition validCards : list string :=
  flat_map (fun r => map (fun s => String.append s r) suitChars) rankChars.

(** A card integer of the documented range, with its two coordinates. *)
Definition validCard (c : Z) : Prop := 1 <= c <= 52.
Definition rank_index (c : Z) : Z := (c - 1) / 4.
Definition suit_index (c : Z) : Z := (c - 1) mod 4.

(** All sub-lists of [k] elements, the elements kept in their order. *)
Fixpoint choose {A : Type} (l : list A) (k : nat) : list (list A) :=
  match l with
  | [] => match k with O => [[]] | S _ => [] end
  | x :: t =>
      match k with
      | O => [[]]
      | S k' => map (cons x) (choose t k') ++ choose t k
      end
  end.

(** [m] is the least of the scores [vs], all of which are numbers. *)
Definition isMin (m : Z) (vs : list (option Z)) : Prop :=
  In (Some m) vs /\ forall v, In v vs -> exists z, v = Some z /\ m <= z.

(** The composite code whose cards come out of the digit loop as [cards]. *)
Definition codeOf (cards : list Z) : Z :=
  fold_right (fun c code => c + 53 * code) 0 cards.

(** The composite code of a sequence of cards, first card most significant:
    the recurrence of [fromString]. *)
Definition numOf (cards : list Z) : Z :=
  fold_left (fun cardsNum c => cardsNum * 53 + c) cards 0.

(** The values of the single-card conversions where they return. *)
Definition cardNumber (s : string) : Z :=
  match fromStringSingle_ s with Return n => n | _ => 0 end.
Definition cardString (n : Z) : string :=
  match toStringSingle_ n with Return s => s | _ => "" end.

(** All cards of a hand have one suit. *)
Definition sameSuit (cards : list Z) : Prop :=
  forall x y, In x cards -> In y cards -> suit_index x = suit_index y.

(** The loops of [eval5Cards_] read on a list rather than by index. *)
Definition rankBitsL (cards : list Z) : Z :=
  fold_left (fun rankBits c => Js.bor rankBits (Js.shl 1 (rankShift (Some c))))
    cards 0.

Definition productL (RANK_PRIMES : Z -> option Z) (cards : list Z) : option Z :=
  fold_left (fun product c => Js.mul product (rankPrime RANK_PRIMES (Some c)))
    cards (Some 1).

(** The [bestHand] loops of [evalHand] over a list of scores. *)
Definition bestOf (hands : list (option Z)) : Z :=
  fold_left keepBest hands 9999.

(** [s] is [l] with some elements left out. *)
Inductive sublist {A : Type} : list A -> list A -> Prop :=
| sublist_nil : sublist [] []
| sublist_keep x s l : sublist s l -> sublist (x :: s) (x :: l)
| sublist_drop x s l : sublist s l -> sublist s (x :: l).

(** An argument of [evalHand] in the documented domain, with fuel for its
    digit loop: a non-negative code of at most [fuel] base-53 digits, or a
    string of at most [fuel] two-character cards. *)
Definition wellFormed (fuel : nat) (a : arg) : Prop :=
  match a with
  | ANum n => 0 <= n < 53 ^ Z.of_nat fuel
  | AStr s => (String.length s / 2 <= fuel)%nat
  end.

Definition wellFormedOpt (fuel : nat) (b : option arg) : Prop :=
  match b with
  | Some x => wellFormed fuel x
  | None => True
  end.

(** The argument [a] stands for the cards [cards], listed in the order the
    digit loop pushes them (last card of the sequence first): as their
    composite code or as their string. *)
Definition encodes (a : arg) (cards : list Z) : Prop :=
  a = ANum (codeOf cards) \/
  a = AStr (String.concat "" (map cardString (rev cards))).

(** The arguments [a] and [b] together stand for the hand [cards]. *)
Definition represents (a : arg) (b : option arg) (cards : list Z) : Prop :=
  exists l1 l2,
    cards = l1 ++ l2 /\ encodes a l1 /\
    match b with
    | Some x => encodes x l2
    | None => l2 = []
    end.

(** The first character of [s] is one of the four suit characters. *)
Definition suitFirst (s : string) : Prop :=
  exists c, Js.charAt s 0 = Some c /\ In c suitChars.

(** [s] begins with one of the 52 card strings. *)
Definition cardFirst (s : string) : Prop :=
  exists c rest, In c validCards /\ s = String.append c rest.

(** The cards of a string, two characters at a time, as [substr(2 * i, 2)]
    cuts them for [i] below half the length. *)
Fixpoint chunks2 (s : string) : list string :=
  match s with
  | String a (String b rest) => String a (String b EmptyString) :: chunks2 rest
  | _ => []
  end.

(** The loop of [fromString] read on the list of its two-character cards. *)
Fixpoint decodeFrom (cs : list string) (cardsNum : Z) : outcome Z :=
  match cs with
  | [] => Return cardsNum
  | c :: cs' => n <- fromStringSingle_ c ;; decodeFrom cs' (cardsNum * 53 + n)
  end.

(** The hash of [eval5Cards_] carried out on unsigned 32-bit words, every
    sum wrapping modulo 2^32: the index [a] and the adjustment index [b]. *)
Definition hash32 (product : Z) : Z * Z :=
  let u := (product + 3910838837) mod 2 ^ 32 in
  let u := Z.lxor u (Z.shiftr u 16) in
  let u := (u + Z.shiftl u 8) mod 2 ^ 32 in
  let u := Z.lxor u (Z.shiftr u 4) in
  (Z.shiftr ((u + Z.shiftl u 2) mod 2 ^ 32) 19, Z.land (Z.shiftr u 8) 511).

(** The largest magnitude below which every integer is a JavaScript number. *)
Definition maxExact : Z := 2 ^ 53.

(** Table fragments to run the evaluator on: rank primes 2, 3, 5, ..., 41;
    rank-pattern entries in the three-band layout (straights from 1600,
    other patterns from 6186) for the patterns drawn from the ranks 8 to
    Ace and for 7-5-4-3-2; a pair table holding the pair of eights with
    A Q T at the slot its hash selects under a zero adjustment. *)
Definition sample_RANK_PRIMES (i : Z) : option Z :=
  if i <? 0 then None
  else nth_error [2; 3; 5; 7; 11; 13; 17; 19; 23; 29; 31; 37; 41] (Z.to_nat i).

Definition sample_UNIQUE5 (rankBits : Z) : option Z :=
  match
    find (fun e => fst e =? rankBits)
      [(7936, 1600); (7808, 6186); (7744, 6187); (7552, 6194); (7488, 6195);
       (7360, 6202); (7040, 6230); (6976, 6231); (6848, 6238); (6592, 6266);
       (6016, 6350); (5952, 6351); (5824, 6358); (5568, 6386); (5056, 6470);
       (3968, 1601); (3904, 6679); (3776, 6686); (3520, 6714); (3008, 6798);
       (1984, 1602); (47, 7462)]
  with
  | Some e => Some (snd e)
  | None => None
  end.

Definition sample_PAIR (i : Z) : option Z :=
  if i =? 6219 then Some 4657 else None.

Definition sample_PAIR_ADJUST (b : Z) : option Z :=
  if (0 <=? b) && (b <? 512) then Some 0 else None.

Definition sample_evalHand : nat -> arg -> option arg -> outcome (option Z) :=
  evalHand sample_UNIQUE5 sample_RANK_PRIMES sample_PAIR sample_PAIR_ADJUST.

(** ** Running the model on the documented scenarios *)

Example toStringSingle_49 : toStringSingle_ 49 = Return "sA".
Proof. reflexivity. Qed.

Example fromStringSingle_sA : fromStringSingle_ "sA" = Return 49.
Proof. reflexivity. Qed.

Example fromString_s2 : fromString "s2" = Return 1.
Proof. reflexivity. Qed.

Example fromString_cA : fromString "cA" = Return 52.
Proof. reflexivity. Qed.

Example toString_fromString :
  (n <- fromString "sAcAdAsKhK" ;; toString 10 n) = Return "sAcAdAsKhK".
Proof. vm_compute. reflexivity. Qed.

Example evalHand_royal_flush :
  sample_evalHand 10 (AStr "sAsKsQsJsT") None = Return (Some 1).
Proof. vm_compute. reflexivity. Qed.

Example evalHand_seven_high :
  sample_evalHand 10 (AStr "s7h5d4c3s2") None = Return (Some 7462).
Proof. vm_compute. reflexivity. Qed.

Example evalHand_pair_of_eights :
  sample_evalHand 10 (AStr "sAc8s8sQsT") None = Return (Some 4657).
Proof. vm_compute. reflexivity. Qed.

Example evalHand_seven_cards :
  sample_evalHand 10 (AStr "sAsK") (Some (AStr "sQsJsTs9s8")) = Return (Some 1).
Proof. vm_compute. reflexivity. Qed.

Example evalHand_royal_flush_in_seven :
  sample_evalHand 10 (AStr "sAsKsQsJsTcAdA") None = Return (Some 1).
Proof. vm_compute. reflexivity. Qed.

Example toStringSingle_53 : toStringSingle_ 53 = Throw (WrongRankNum 15).
Proof. reflexivity. Qed.

Example evalHand_four_cards :
  sample_evalHand 10 (AStr "sAsKsQsJ") None = Throw (WrongCardCount 4).
Proof. vm_compute. reflexivity. Qed.

Example evalHand_negative_loops :
  forall fuel, sample_evalHand fuel (ANum (-1)) None = OutOfFuel.
Proof.
  intro fuel. unfold sample_evalHand, evalHand, allCardsOf. simpl cardsNumOf.
  assert (H : forall f acc, pushCards f (-1) acc = OutOfFuel).
  { induction f as [|f IH]; intro acc; simpl; [reflexivity|].
    replace (-1 / 53) with (-1) by reflexivity. apply IH. }
  simpl bind at 2. rewrite H. reflexivity.
Qed.

(** ** The codec: single cards *)

Lemma in_range_1_52 (n : Z) :
  1 <= n <= 52 -> In n (map Z.of_nat (seq 1 52)).
Proof.
  intro H. apply in_map_iff. exists (Z.to_nat n). split; [lia|].
  apply in_seq. lia.
Qed.

Lemma numToString_parse (r : Z) :
  NilZero.int_of_string (Js.numToString r) = Some (Z.to_int r).
Proof.
  unfold Js.numToString.
  apply NilZero.isi; destruct r; simpl; try discriminate;
    intro E; injection E; apply DecimalPos.Unsigned.to_uint_nonnil.
Qed.

Lemma numToString_inj (r r' : Z) :
  Js.numToString r = Js.numToString r' -> r = r'.
Proof.
  intro E. pose proof (numToString_parse r) as H.
  rewrite E, numToString_parse in H. injection H as H.
  rewrite <- (DecimalZ.of_to r), <- (DecimalZ.of_to r'). now rewrite H.
Qed.

(** Only the rank numbers 1, 10, 11, 12 and 13 have an entry in [Ranks]. *)
Lemma Ranks_numToString_None (r : Z) :
  r <> 1 -> r <> 10 -> r <> 11 -> r <> 12 -> r <> 13 ->
  Ranks (Js.numToString r) = None.
Proof.
  intros H1 H10 H11 H12 H13. unfold Ranks.
  change "10" with (Js.numToString 10). change "11" with (Js.numToString 11).
  change "12" with (Js.numToString 12). change "13" with (Js.numToString 13).
  change "1" with (Js.numToString 1).
  repeat match goal with
  | |- context [String.eqb ?a ?b] =>
      destruct (String.eqb_spec a b) as [E|_];
      [ exfalso; apply numToString_inj in E; lia | ]
  end.
  reflexivity.
Qed.

(** Above 52 and below -3 the rank assertion of [toStringSingle_] fires. *)
Lemma toStringSingle_throws (n : Z) :
  n < -3 \/ 52 < n ->
  toStringSingle_ n = Throw (WrongRankNum ((n - 1) / 4 + 2)).
Proof.
  intro H. unfold toStringSingle_.
  set (q := (n - 1) / 4).
  assert (Hq : q <= -2 \/ 13 <= q).
  { unfold q. destruct H; [left | right].
    - apply Z.lt_succ_r. apply Z.div_lt_upper_bound; lia.
    - apply Z.div_le_lower_bound; lia. }
  replace (q + 2 =? 14) with false by (symmetry; apply Z.eqb_neq; lia).
  replace ((2 <=? q + 2) && (q + 2 <=? 9)) with false
    by (symmetry; apply andb_false_iff; destruct Hq;
        [left; apply Z.leb_gt | right; apply Z.leb_gt]; lia).
  rewrite Ranks_numToString_None by lia. reflexivity.
Qed.

Lemma validCards_length : List.length validCards = 52%nat.
Proof. reflexivity. Qed.

Lemma validCards_NoDup : NoDup validCards.
Proof.
  assert (H : forall (l : list string),
             (fix nodup l := match l with
                             | [] => true
                             | x :: t => negb (existsb (String.eqb x) t) && nodup t
                             end) l = true -> NoDup l).
  { induction l as [|x t IH]; intro E; [constructor|].
    apply andb_prop in E as [E1 E2]. constructor; [|exact (IH E2)].
    intro Hin. apply negb_true_iff in E1.
    assert (existsb (String.eqb x) t = true)
      by (apply existsb_exists; exists x; split; [exact Hin | apply String.eqb_refl]).
    congruence. }
  apply H. vm_compute. reflexivity.
Qed.

Lemma toStringSingle_fromStringSingle (n : Z) :
  1 <= n <= 52 ->
  exists s,
    toStringSingle_ n = Return s /\ In s validCards /\
    fromStringSingle_ s = Return n.
Proof.
  intro H. apply in_range_1_52 in H. revert n H. apply Forall_forall.
  repeat (constructor;
          [ eexists; split; [reflexivity|]; split;
            [ vm_compute; tauto | reflexivity ] | ]).
  constructor.
Qed.

Lemma fromStringSingle_toStringSingle (s : string) :
  In s validCards ->
  exists n,
    fromStringSingle_ s = Return n /\ 1 <= n <= 52 /\
    toStringSingle_ n = Return s /\ String.length s = 2%nat.
Proof.
  revert s. apply Forall_forall.
  repeat (constructor;
          [ eexists; split; [vm_compute; reflexivity|]; split;
            [ lia | split; reflexivity ] | ]).
  constructor.
Qed.

(** C2. The single-card codec round-trips in both directions: every integer
    in [1,52] is encoded to one of the 52 valid card strings that decodes
    back to it, and every valid card string is decoded to an integer of
    [1,52] that encodes back to it; the 52 strings are pairwise distinct, so
    the codec is a bijection between them and [1,52]. *)
Theorem card_codec_roundtrip :
  (forall n, 1 <= n <= 52 ->
     exists s, toStringSingle_ n = Return s /\ In s validCards /\
               fromStringSingle_ s = Return n) /\
  (forall s, In s validCards ->
     exists n, fromStringSingle_ s = Return n /\ 1 <= n <= 52 /\
               toStringSingle_ n = Return s) /\
  NoDup validCards /\ List.length validCards = 52%nat.
Proof.
  split; [exact toStringSingle_fromStringSingle|].
  split.
  - intros s Hs. destruct (fromStringSingle_toStringSingle s Hs)
      as (n & H1 & H2 & H3 & _). exists n. auto.
  - split; [exact validCards_NoDup | exact validCards_length].
Qed.

Lemma card_codec_roundtrip_witness :
  (exists s, toStringSingle_ 49 = Return s /\ In s validCards /\
             fromStringSingle_ s = Return 49) /\
  (exists n, fromStringSingle_ "cQ" = Return n /\ 1 <= n <= 52 /\
             toStringSingle_ n = Return "cQ").
Proof.
  split.
  - apply (proj1 card_codec_roundtrip 49). lia.
  - apply (proj1 (proj2 card_codec_roundtrip) "cQ"). vm_compute. tauto.
Defined.

(** C4. [toStringSingle_] does not reject every integer outside [1,52].
    On 0, -1 and -2 the suit [switch] matches no case and the rank number is
    1, the key of the Ace, so the call returns the string "undefinedA"
    instead of failing; on -3 it returns "sA". *)
Theorem toStringSingle_below_range :
  toStringSingle_ 0 = Return "undefinedA" /\
  toStringSingle_ (-1) = Return "undefinedA" /\
  toStringSingle_ (-2) = Return "undefinedA" /\
  toStringSingle_ (-3) = Return "sA".
Proof. repeat split. Qed.

(** ** The codec: sequences *)

Lemma append_assoc (a b c : string) :
  String.append (String.append a b) c = String.append a (String.append b c).
Proof. induction a as [|x a IH]; simpl; [reflexivity | now rewrite IH]. Qed.

Lemma append_nil_r (a : string) : String.append a "" = a.
Proof. induction a as [|x a IH]; simpl; [reflexivity | now rewrite IH]. Qed.

Lemma length_append (a b : string) :
  String.length (String.append a b) = (String.length a + String.length b)%nat.
Proof. induction a as [|x a IH]; simpl; [reflexivity | now rewrite IH]. Qed.

Lemma concat_cons (x : string) (xs : list string) :
  String.concat "" (x :: xs) = String.append x (String.concat "" xs).
Proof. destruct xs; simpl; [now rewrite append_nil_r | reflexivity]. Qed.

Lemma concat_app (xs ys : list string) :
  String.concat "" (xs ++ ys)
  = String.append (String.concat "" xs) (String.concat "" ys).
Proof.
  induction xs as [|x xs IH]; [reflexivity|].
  rewrite <- app_comm_cons, !concat_cons, IH, append_assoc. reflexivity.
Qed.

Lemma substring_skip (pre s : string) (m : nat) :
  String.substring (String.length pre) m (String.append pre s)
  = String.substring 0 m s.
Proof. induction pre as [|x pre IH]; simpl; [reflexivity | exact IH]. Qed.

Lemma substring_card (c rest : string) :
  String.length c = 2%nat -> String.substring 0 2 (String.append c rest) = c.
Proof.
  destruct c as [|x [|y [|z c]]]; simpl; try discriminate.
  intros _. now destruct rest.
Qed.

Lemma concat_cards_length (cs : list string) :
  Forall (fun c => In c validCards) cs ->
  String.length (String.concat "" cs) = (2 * List.length cs)%nat.
Proof.
  induction 1 as [|c cs Hc _ IH]; [reflexivity|].
  rewrite concat_cons, length_append, IH.
  destruct (fromStringSingle_toStringSingle c Hc) as (_ & _ & _ & _ & ->).
  simpl. lia.
Qed.

Lemma cardNumber_valid (c : string) :
  In c validCards ->
  fromStringSingle_ c = Return (cardNumber c) /\ validCard (cardNumber c) /\
  cardString (cardNumber c) = c /\ String.length c = 2%nat.
Proof.
  intro Hc. destruct (fromStringSingle_toStringSingle c Hc)
    as (n & H1 & H2 & H3 & H4).
  unfold cardNumber. rewrite H1. unfold cardString. rewrite H3. auto.
Qed.

Lemma cardString_valid (n : Z) :
  validCard n ->
  toStringSingle_ n = Return (cardString n) /\ In (cardString n) validCards /\
  cardNumber (cardString n) = n.
Proof.
  intro Hn. destruct (toStringSingle_fromStringSingle n Hn) as (s & H1 & H2 & H3).
  unfold cardString. rewrite H1. unfold cardNumber. rewrite H3. auto.
Qed.

(** The loop of [fromString], started at card [k] of the string. *)
Lemma fromString_loop (cs : list string) :
  Forall (fun c => In c validCards) cs ->
  forall (pre : string) (k : nat) (acc : Z),
    String.length pre = (2 * k)%nat ->
    fold_left
      (fun acc i =>
         cardsNum <- acc ;;
         c <- fromStringSingle_
                (String.substring (2 * i) 2
                   (String.append pre (String.concat "" cs))) ;;
         Return (cardsNum * 53 + c))
      (seq k (List.length cs)) (Return acc)
    = Return (fold_left (fun cardsNum c => cardsNum * 53 + c)
                (map cardNumber cs) acc).
Proof.
  induction 1 as [|c cs Hc _ IH]; intros pre k acc Hpre; [reflexivity|].
  destruct (cardNumber_valid c Hc) as (H1 & _ & _ & H4).
  rewrite concat_cons. cbn [List.length seq fold_left map].
  rewrite <- Hpre, substring_skip, substring_card by exact H4.
  rewrite H1. cbn [bind].
  rewrite <- append_assoc.
  apply IH. rewrite length_append, H4. lia.
Qed.

Lemma fromString_concat (cs : list string) :
  Forall (fun c => In c validCards) cs ->
  fromString (String.concat "" cs) = Return (numOf (map cardNumber cs)).
Proof.
  intro H. unfold fromString. rewrite (concat_cards_length cs H).
  replace (2 * List.length cs mod 2)%nat with 0%nat
    by (symmetry; rewrite Nat.mul_comm; apply Nat.Div0.mod_mul).
  replace (2 * List.length cs / 2)%nat with (List.length cs)
    by (symmetry; rewrite Nat.mul_comm; apply Nat.div_mul; discriminate).
  cbn [Nat.eqb]. exact (fromString_loop cs H "" 0%nat 0 eq_refl).
Qed.

Lemma numOf_snoc (ns : list Z) (n : Z) : numOf (ns ++ [n]) = numOf ns * 53 + n.
Proof. unfold numOf. now rewrite fold_left_app. Qed.

Lemma numOf_nonneg (ns : list Z) : Forall validCard ns -> 0 <= numOf ns.
Proof.
  induction ns as [|n ns IH] using rev_ind; intro H; [unfold numOf; simpl; lia|].
  apply Forall_app in H as [H1 H2]. inversion H2; subst.
  rewrite numOf_snoc. unfold validCard in *. specialize (IH H1). lia.
Qed.

(** One turn of the digit loops: the last card is the remainder, the code
    of the cards before it is the quotient, and the code is not 0. *)
Lemma numOf_snoc_digit (ns : list Z) (n : Z) :
  Forall validCard ns -> validCard n ->
  (numOf (ns ++ [n]) =? 0) = false /\
  Z.rem (numOf (ns ++ [n])) 53 = n /\
  numOf (ns ++ [n]) / 53 = numOf ns.
Proof.
  intros Hns Hn. pose proof (numOf_nonneg ns Hns) as H0.
  rewrite numOf_snoc. unfold validCard in Hn. repeat split.
  - apply Z.eqb_neq. lia.
  - rewrite Z.rem_mod_nonneg by lia.
    rewrite Z.add_comm, Z.mod_add by lia. apply Z.mod_small. lia.
  - rewrite Z.add_comm, Z.div_add by lia. rewrite Z.div_small by lia. lia.
Qed.

Lemma toString_loop_numOf (ns : list Z) :
  Forall validCard ns ->
  forall (fuel : nat) (strs : list string),
    (List.length ns <= fuel)%nat ->
    toString_loop fuel (numOf ns) strs
    = Return (strs ++ rev (map cardString ns)).
Proof.
  induction ns as [|n ns IH] using rev_ind; intros H fuel strs Hf.
  - destruct fuel; simpl; now rewrite app_nil_r.
  - apply Forall_app in H as [H1 H2]. inversion H2 as [|? ? Hn _]; subst.
    rewrite length_app in Hf. simpl in Hf.
    destruct fuel as [|fuel]; [lia|].
    destruct (numOf_snoc_digit ns n H1 Hn) as (E0 & Er & Ed).
    cbn [toString_loop]. rewrite E0, Er, Ed.
    destruct (cardString_valid n Hn) as (-> & _ & _). cbn [bind].
    rewrite IH by (auto; lia).
    rewrite map_app, rev_app_distr, <- app_assoc. reflexivity.
Qed.

Lemma toString_numOf (ns : list Z) (fuel : nat) :
  Forall validCard ns -> (List.length ns <= fuel)%nat ->
  toString fuel (numOf ns) = Return (String.concat "" (map cardString ns)).
Proof.
  intros H Hf. unfold toString. rewrite toString_loop_numOf by assumption.
  cbn [bind app]. now rewrite rev_involutive.
Qed.

Lemma map_cardNumber_valid (cs : list string) :
  Forall (fun c => In c validCards) cs ->
  Forall validCard (map cardNumber cs) /\
  map cardString (map cardNumber cs) = cs.
Proof.
  induction 1 as [|c cs Hc _ [IH1 IH2]]; [split; [constructor | reflexivity]|].
  destruct (cardNumber_valid c Hc) as (_ & H2 & H3 & _).
  split; [constructor; assumption | simpl; now rewrite H3, IH2].
Qed.

(** C5. For a string made of 1 to 7 valid cards, [fromString] returns a
    code, [toString] maps that code back to the very string (given fuel for
    its seven turns at most), and decoding the result gives the code again:
    fromString (toString (fromString s)) = fromString s. *)
Theorem sequence_roundtrip (cs : list string) (fuel : nat) :
  Forall (fun c => In c validCards) cs ->
  (1 <= List.length cs <= 7)%nat ->
  (7 <= fuel)%nat ->
  exists n,
    fromString (String.concat "" cs) = Return n /\
    toString fuel n = Return (String.concat "" cs) /\
    (s <- toString fuel n ;; fromString s) = Return n.
Proof.
  intros Hcs Hlen Hfuel. exists (numOf (map cardNumber cs)).
  destruct (map_cardNumber_valid cs Hcs) as [Hv Hid].
  assert (Ht : toString fuel (numOf (map cardNumber cs))
               = Return (String.concat "" cs)).
  { rewrite toString_numOf; [now rewrite Hid | exact Hv |].
    rewrite length_map. lia. }
  split; [now apply fromString_concat|]. split; [exact Ht|].
  rewrite Ht. cbn [bind]. now apply fromString_concat.
Qed.

Lemma sequence_roundtrip_witness :
  exists n,
    fromString "sAcAdAsKhK" = Return n /\
    toString 7 n = Return "sAcAdAsKhK" /\
    (s <- toString 7 n ;; fromString s) = Return n.
Proof.
  apply (sequence_roundtrip ["sA"; "cA"; "dA"; "sK"; "hK"] 7).
  - repeat (apply Forall_cons; [vm_compute; tauto|]). apply Forall_nil.
  - simpl. lia.
  - lia.
Defined.

(** ** 32-bit operators *)

Lemma two32_pow : Js.two32 = 2 ^ 32.
Proof. reflexivity. Qed.

Lemma toUint32_range (z : Z) : 0 <= Js.toUint32 z < Js.two32.
Proof. unfold Js.toUint32. apply Z.mod_pos_bound. reflexivity. Qed.

Lemma toUint32_signed (u : Z) :
  0 <= u < Js.two32 -> Js.toUint32 (Js.signed u) = u.
Proof.
  intro H. unfold Js.toUint32, Js.signed.
  destruct (u <? Js.two31) eqn:E.
  - apply Z.mod_small. exact H.
  - replace (u - Js.two32) with (u + (-1) * Js.two32) by ring.
    rewrite Z.mod_add by discriminate. apply Z.mod_small. exact H.
Qed.

Lemma toUint32_toInt32 (z : Z) : Js.toUint32 (Js.toInt32 z) = Js.toUint32 z.
Proof. unfold Js.toInt32. apply toUint32_signed, toUint32_range. Qed.

Lemma toUint32_lor (a b : Z) :
  Js.toUint32 (Z.lor a b) = Z.lor (Js.toUint32 a) (Js.toUint32 b).
Proof.
  unfold Js.toUint32. rewrite two32_pow.
  rewrite <- !Z.land_ones by lia. apply Z.land_lor_distr_l.
Qed.

(** [a | b] only depends on the operands modulo 2^32. *)
Lemma bor_unsigned (a b : Z) :
  Js.bor a b = Js.signed (Z.lor (Js.toUint32 a) (Js.toUint32 b)).
Proof.
  unfold Js.bor. unfold Js.toInt32 at 1.
  now rewrite toUint32_lor, !toUint32_toInt32.
Qed.

Lemma toUint32_bor (a b : Z) :
  Js.toUint32 (Js.bor a b) = Z.lor (Js.toUint32 a) (Js.toUint32 b).
Proof.
  unfold Js.bor. now rewrite toUint32_toInt32, toUint32_lor, !toUint32_toInt32.
Qed.

Lemma bor_swap (a x y : Z) : Js.bor (Js.bor a x) y = Js.bor (Js.bor a y) x.
Proof.
  rewrite (bor_unsigned (Js.bor a x)), (bor_unsigned (Js.bor a y)).
  rewrite !toUint32_bor. f_equal.
  rewrite <- !Z.lor_assoc. f_equal. apply Z.lor_comm.
Qed.

Lemma lor_below_pow2 (n a b : Z) :
  0 <= n -> 0 <= a < 2 ^ n -> 0 <= b < 2 ^ n -> 0 <= Z.lor a b < 2 ^ n.
Proof.
  intros Hn Ha Hb.
  rewrite <- (Z.mod_small a (2 ^ n)), <- (Z.mod_small b (2 ^ n)) by assumption.
  rewrite <- !Z.land_ones, <- Z.land_lor_distr_l, Z.land_ones by assumption.
  apply Z.mod_pos_bound. apply Z.pow_pos_nonneg; lia.
Qed.

Lemma toInt32_small (z : Z) : 0 <= z < Js.two31 -> Js.toInt32 z = z.
Proof.
  intro H. unfold Js.toInt32, Js.toUint32, Js.signed.
  rewrite Z.mod_small by (unfold Js.two31, Js.two32 in *; lia).
  destruct (z <? Js.two31) eqn:E; [reflexivity|].
  apply Z.ltb_ge in E. lia.
Qed.

(** On operands below 2^13 the operator [|] is the bitwise or of [Z]. *)
Lemma bor_small (a b : Z) :
  0 <= a < 2 ^ 13 -> 0 <= b < 2 ^ 13 ->
  Js.bor a b = Z.lor a b /\ 0 <= Z.lor a b < 2 ^ 13.
Proof.
  intros Ha Hb. pose proof (lor_below_pow2 13 a b ltac:(lia) Ha Hb) as H.
  split; [|exact H]. unfold Js.bor.
  assert (E : 2 ^ 13 = 8192) by reflexivity.
  rewrite (toInt32_small a), (toInt32_small b), toInt32_small;
    unfold Js.two31; lia.
Qed.

(** ** The five-card scorer *)

Lemma shl_rank (c : Z) :
  validCard c ->
  Js.shl 1 (rankShift (Some c)) = 2 ^ rank_index c /\ 0 <= rank_index c <= 12.
Proof.
  intro H. apply in_range_1_52 in H. revert c H. apply Forall_forall.
  repeat (apply Forall_cons; [vm_compute; intuition discriminate|]).
  apply Forall_nil.
Qed.

Lemma rankBitsOf_five (cards : list Z) :
  List.length cards = 5%nat -> rankBitsOf cards = rankBitsL cards.
Proof.
  destruct cards as [|c0 [|c1 [|c2 [|c3 [|c4 [|c5 t]]]]]]; try discriminate.
  intros _. unfold rankBitsOf, rankBitsL. cbn [fold_left seq nth_error].
  reflexivity.
Qed.

(** The accumulated mask stays below 2^13 and holds the bits of the
    accumulator together with one bit per card rank. *)
Lemma rankBits_fold (cards : list Z) :
  Forall validCard cards ->
  forall acc, 0 <= acc < 2 ^ 13 ->
    let r := fold_left
               (fun rankBits c => Js.bor rankBits (Js.shl 1 (rankShift (Some c))))
               cards acc in
    0 <= r < 2 ^ 13 /\
    forall i, Z.testbit r i
              = Z.testbit acc i || existsb (fun c => rank_index c =? i) cards.
Proof.
  induction 1 as [|c cards Hc _ IH]; intros acc Hacc; cbn [fold_left existsb].
  - split; [exact Hacc | intro i; now rewrite orb_false_r].
  - destruct (shl_rank c Hc) as [E Hr]. rewrite E.
    assert (Hp : 0 <= 2 ^ rank_index c < 2 ^ 13).
    { split; [apply Z.pow_nonneg; lia | apply Z.pow_lt_mono_r; lia]. }
    destruct (bor_small acc (2 ^ rank_index c) Hacc Hp) as [-> Hl].
    destruct (IH _ Hl) as [IH1 IH2]. split; [exact IH1|].
    intro i. rewrite IH2, Z.lor_spec, Z.pow2_bits_eqb by lia.
    now rewrite orb_assoc.
Qed.

(** C6. On five cards of [1,52] the first loop of [eval5Cards_] computes
    the rank-presence mask: a 13-bit value whose bit [i] is set exactly when
    some card of the hand has rank index [i] = floor((c - 1) / 4). *)
Theorem rankBits_is_rank_mask (cards : list Z) :
  List.length cards = 5%nat ->
  Forall validCard cards ->
  0 <= rankBitsOf cards < 2 ^ 13 /\
  forall i, Z.testbit (rankBitsOf cards) i = true
            <-> exists c, In c cards /\ rank_index c = i.
Proof.
  intros Hlen Hv. rewrite rankBitsOf_five by exact Hlen.
  destruct (rankBits_fold cards Hv 0 ltac:(lia)) as [Hr Hb].
  split; [exact Hr|]. intro i. unfold rankBitsL. rewrite Hb, Z.bits_0.
  cbn [orb]. rewrite existsb_exists.
  split; intros (c & Hin & Hc); exists c; split; try exact Hin.
  - now apply Z.eqb_eq.
  - now apply Z.eqb_eq.
Qed.

Lemma rankBits_is_rank_mask_witness :
  0 <= rankBitsOf [49; 45; 41; 37; 33] < 2 ^ 13 /\
  forall i, Z.testbit (rankBitsOf [49; 45; 41; 37; 33]) i = true
            <-> exists c, In c [49; 45; 41; 37; 33] /\ rank_index c = i.
Proof.
  apply (rankBits_is_rank_mask [49; 45; 41; 37; 33]).
  - reflexivity.
  - repeat (apply Forall_cons; [unfold validCard; lia|]). apply Forall_nil.
Defined.

Lemma mod4_shift (x y : Z) :
  x mod 4 = y mod 4 <-> (x - 1) mod 4 = (y - 1) mod 4.
Proof. split; intro H; Z.div_mod_to_equations; lia. Qed.

Lemma flushOf_five (c0 c1 c2 c3 c4 : Z) :
  flushOf [c0; c1; c2; c3; c4]
  = forallb (fun c => Z.rem c0 4 =? Z.rem c 4) [c1; c2; c3; c4].
Proof.
  unfold flushOf. cbn [seq forallb nth_error Js.rem Js.lift2 Js.neq].
  now rewrite !negb_involutive.
Qed.

Lemma flushOf_mod4 (cards : list Z) :
  List.length cards = 5%nat ->
  Forall validCard cards ->
  (flushOf cards = true
   <-> forall x y, In x cards -> In y cards -> x mod 4 = y mod 4).
Proof.
  destruct cards as [|c0 [|c1 [|c2 [|c3 [|c4 [|c5 t]]]]]]; try discriminate.
  intros _ Hv. rewrite flushOf_five, forallb_forall.
  assert (Hrem : forall c, In c [c0; c1; c2; c3; c4] -> Z.rem c 4 = c mod 4).
  { intros c Hc. rewrite Forall_forall in Hv. specialize (Hv c Hc).
    unfold validCard in Hv. apply Z.rem_mod_nonneg; lia. }
  split.
  - intros H x y Hx Hy.
    assert (Hall : forall c, In c [c0; c1; c2; c3; c4] -> c mod 4 = c0 mod 4).
    { intros c [<-|Hc]; [reflexivity|].
      specialize (H c Hc). apply Z.eqb_eq in H.
      rewrite <- (Hrem c) by (right; exact Hc).
      rewrite <- (Hrem c0) by (left; reflexivity). now symmetry. }
    now rewrite (Hall x Hx), (Hall y Hy).
  - intros H c Hc. apply Z.eqb_eq.
    rewrite (Hrem c0) by (left; reflexivity).
    rewrite (Hrem c) by (right; exact Hc).
    apply H; [left; reflexivity | right; exact Hc].
Qed.

Lemma mod4_sameSuit (cards : list Z) :
  (forall x y, In x cards -> In y cards -> x mod 4 = y mod 4)
  <-> sameSuit cards.
Proof.
  unfold sameSuit, suit_index.
  split; intros H x y Hx Hy;
    [ apply (proj1 (mod4_shift x y)) | apply (proj2 (mod4_shift x y)) ];
    now apply H.
Qed.

Lemma flushOf_sameSuit (cards : list Z) :
  List.length cards = 5%nat ->
  Forall validCard cards ->
  (flushOf cards = true <-> sameSuit cards).
Proof.
  intros Hlen Hv. rewrite (flushOf_mod4 cards Hlen Hv). apply mod4_sameSuit.
Qed.

(** C7. On five cards of [1,52] the flush loop, which compares [c % 4] of
    every card with that of the first, succeeds exactly when all five cards
    have the same [c mod 4], and that is the case exactly when they all have
    the same suit index [(c - 1) mod 4]. *)
Theorem flush_check_same_suit (cards : list Z) :
  List.length cards = 5%nat ->
  Forall validCard cards ->
  (flushOf cards = true
   <-> forall x y, In x cards -> In y cards -> x mod 4 = y mod 4) /\
  ((forall x y, In x cards -> In y cards -> x mod 4 = y mod 4)
   <-> sameSuit cards) /\
  (flushOf cards = true <-> sameSuit cards).
Proof.
  intros Hlen Hv. split; [now apply flushOf_mod4|].
  split; [apply mod4_sameSuit | now apply flushOf_sameSuit].
Qed.

Lemma flush_check_same_suit_witness :
  flushOf [49; 45; 41; 37; 33] = true <-> sameSuit [49; 45; 41; 37; 33].
Proof.
  apply (flush_check_same_suit [49; 45; 41; 37; 33]).
  - reflexivity.
  - repeat (apply Forall_cons; [unfold validCard; lia|]). apply Forall_nil.
Defined.

Lemma flushOf_rem (cards : list Z) :
  List.length cards = 5%nat ->
  (flushOf cards = true
   <-> forall x y, In x cards -> In y cards -> Z.rem x 4 = Z.rem y 4).
Proof.
  destruct cards as [|c0 [|c1 [|c2 [|c3 [|c4 [|c5 t]]]]]]; try discriminate.
  intros _. rewrite flushOf_five, forallb_forall. split.
  - intros H x y Hx Hy.
    assert (Hall : forall c, In c [c0; c1; c2; c3; c4] -> Z.rem c 4 = Z.rem c0 4).
    { intros c [<-|Hc]; [reflexivity|].
      specialize (H c Hc). apply Z.eqb_eq in H. now symmetry. }
    now rewrite (Hall x Hx), (Hall y Hy).
  - intros H c Hc. apply Z.eqb_eq.
    apply H; [left; reflexivity | right; exact Hc].
Qed.

Lemma fold_left_swap_perm {A B : Type} (f : A -> B -> A) :
  (forall a x y, f (f a x) y = f (f a y) x) ->
  forall l l', Permutation l l' ->
  forall a, fold_left f l a = fold_left f l' a.
Proof.
  intros Hf l l' HP.
  induction HP as [|x l l' _ IH|x y l|l l' l'' _ IH1 _ IH2]; intro a; simpl.
  - reflexivity.
  - apply IH.
  - now rewrite Hf.
  - now rewrite IH1.
Qed.

Lemma rankBitsL_perm (l l' : list Z) :
  Permutation l l' -> rankBitsL l = rankBitsL l'.
Proof.
  intro HP. unfold rankBitsL. apply fold_left_swap_perm; [|exact HP].
  intros a x y. apply bor_swap.
Qed.

Lemma flushOf_perm (l l' : list Z) :
  List.length l = 5%nat -> Permutation l l' -> flushOf l = flushOf l'.
Proof.
  intros Hlen HP.
  assert (Hlen' : List.length l' = 5%nat)
    by (rewrite <- Hlen; symmetry; now apply Permutation_length).
  apply Bool.eq_iff_eq_true.
  rewrite (flushOf_rem l Hlen), (flushOf_rem l' Hlen').
  split; intros H x y Hx Hy; apply H.
  - apply Permutation_in with (l := l'); [now apply Permutation_sym | exact Hx].
  - apply Permutation_in with (l := l'); [now apply Permutation_sym | exact Hy].
  - apply Permutation_in with (l := l); assumption.
  - apply Permutation_in with (l := l); assumption.
Qed.

Section Scorer.

Variable UNIQUE5 : Z -> option Z.
Variable RANK_PRIMES : Z -> option Z.
Variable PAIR : Z -> option Z.
Variable PAIR_ADJUST : Z -> option Z.

Local Abbreviation eval5 := (eval5Cards_ UNIQUE5 RANK_PRIMES PAIR PAIR_ADJUST).

Lemma productOf_five (cards : list Z) :
  List.length cards = 5%nat ->
  productOf RANK_PRIMES cards = productL RANK_PRIMES cards.
Proof.
  destruct cards as [|c0 [|c1 [|c2 [|c3 [|c4 [|c5 t]]]]]]; try discriminate.
  intros _. unfold productOf, productL. cbn [fold_left seq nth_error].
  reflexivity.
Qed.

Lemma productL_perm (l l' : list Z) :
  Permutation l l' -> productL RANK_PRIMES l = productL RANK_PRIMES l'.
Proof.
  intro HP. unfold productL. apply fold_left_swap_perm; [|exact HP].
  intros a x y.
  destruct a as [a|], (rankPrime RANK_PRIMES (Some x)) as [p|],
    (rankPrime RANK_PRIMES (Some y)) as [q|]; cbn; try reflexivity.
  f_equal. ring.
Qed.

(** The five-card scorer does not depend on the order of its cards. *)
Lemma eval5Cards_perm (l l' : list Z) :
  List.length l = 5%nat -> Permutation l l' -> eval5 l = eval5 l'.
Proof.
  intros Hlen HP.
  assert (Hlen' : List.length l' = 5%nat)
    by (rewrite <- Hlen; symmetry; now apply Permutation_length).
  unfold eval5Cards_.
  rewrite (rankBitsOf_five l Hlen), (rankBitsOf_five l' Hlen').
  rewrite (productOf_five l Hlen), (productOf_five l' Hlen').
  rewrite (rankBitsL_perm l l' HP), (flushOf_perm l l' Hlen HP).
  now rewrite (productL_perm l l' HP).
Qed.

(** C3. For five cards of [1,52] whose rank pattern has a (truthy) entry
    [v] in the unique-pattern table: when all five cards have one suit the
    score is [v - 1599] if [v < 1610] and [v - 5863] otherwise; when they do
    not all have one suit the score is [v] itself. *)
Theorem eval5Cards_unique_pattern (cards : list Z) (v : Z) :
  List.length cards = 5%nat ->
  Forall validCard cards ->
  UNIQUE5 (rankBitsOf cards) = Some v ->
  v <> 0 ->
  (sameSuit cards -> v < 1610 -> eval5 cards = Some (v - 1599)) /\
  (sameSuit cards -> 1610 <= v -> eval5 cards = Some (v - 5863)) /\
  (~ sameSuit cards -> eval5 cards = Some v).
Proof.
  intros Hlen Hv HU Hnz.
  pose proof (flushOf_sameSuit cards Hlen Hv) as Hf.
  unfold eval5Cards_. rewrite HU. cbn [Js.truthy].
  replace (v =? 0) with false by (symmetry; now apply Z.eqb_neq).
  cbn [negb Js.lt Js.sub Js.lift2].
  repeat split.
  - intros Hs Hlt. rewrite (proj2 Hf Hs).
    now replace (v <? 1610) with true by (symmetry; now apply Z.ltb_lt).
  - intros Hs Hge. rewrite (proj2 Hf Hs).
    now replace (v <? 1610) with false by (symmetry; now apply Z.ltb_ge).
  - intro Hs. destruct (flushOf cards); [|reflexivity].
    exfalso. apply Hs. now apply Hf.
Qed.

End Scorer.

Lemma eval5Cards_unique_pattern_witness :
  let eval5 :=
    eval5Cards_ sample_UNIQUE5 sample_RANK_PRIMES sample_PAIR sample_PAIR_ADJUST
  in
  let cards := [49; 45; 41; 37; 33] in
  (sameSuit cards -> 1600 < 1610 -> eval5 cards = Some (1600 - 1599)) /\
  (sameSuit cards -> 1610 <= 1600 -> eval5 cards = Some (1600 - 5863)) /\
  (~ sameSuit cards -> eval5 cards = Some 1600).
Proof.
  apply (eval5Cards_unique_pattern sample_UNIQUE5 sample_RANK_PRIMES
           sample_PAIR sample_PAIR_ADJUST [49; 45; 41; 37; 33] 1600).
  - reflexivity.
  - repeat (apply Forall_cons; [unfold validCard; lia|]). apply Forall_nil.
  - reflexivity.
  - discriminate.
Defined.

(** ** Sub-hands *)

Lemma sublist_nil_l {A : Type} (l : list A) : sublist [] l.
Proof. induction l; constructor; assumption. Qed.

(** [choose l k] lists exactly the sub-lists of [l] with [k] elements. *)
Lemma choose_sublist {A : Type} (l : list A) :
  forall k s, In s (choose l k) <-> sublist s l /\ List.length s = k.
Proof.
  induction l as [|x t IH]; intros k s.
  - destruct k; simpl; split.
    + intros [<-|[]]. split; [constructor | reflexivity].
    + intros [H _]. inversion H. now left.
    + intros [].
    + intros [H E]. inversion H; subst. discriminate.
  - destruct k as [|k]; cbn [choose].
    + split.
      * intros [<-|[]]. split; [apply sublist_nil_l | reflexivity].
      * intros [_ E]. destruct s; [now left | discriminate].
    + rewrite in_app_iff, in_map_iff. split.
      * intros [(s' & <- & Hs')|Hs].
        -- apply IH in Hs' as [H1 H2]. split; [now constructor | simpl; now rewrite H2].
        -- apply IH in Hs as [H1 H2]. split; [now constructor | exact H2].
      * intros [H E]. inversion H; subst.
        -- left. eexists. split; [reflexivity|]. apply IH.
           split; [assumption | now injection E].
        -- right. apply IH. now split.
Qed.

Lemma sublist_perm {A : Type} (l l' : list A) :
  Permutation l l' ->
  forall s, sublist s l -> exists s', sublist s' l' /\ Permutation s s'.
Proof.
  induction 1 as [|x l l' _ IH|x y l|l l' l'' _ IH1 _ IH2]; intros s Hs.
  - exists s. split; [exact Hs | apply Permutation_refl].
  - inversion Hs as [|? s0 ? H0|? ? ? H0]; subst.
    + destruct (IH s0 H0) as (s' & H1 & H2).
      exists (x :: s'). split; [now constructor | now constructor].
    + destruct (IH s H0) as (s' & H1 & H2).
      exists s'. split; [now constructor | exact H2].
  - inversion Hs as [|? s0 ? H0|? ? ? H0]; subst;
      inversion H0 as [|? s1 ? H1|? ? ? H1]; subst.
    + exists (x :: y :: s1). split; [now repeat constructor | apply perm_swap].
    + exists (y :: s0). split; [now repeat constructor | apply Permutation_refl].
    + exists (x :: s1). split; [now repeat constructor | apply Permutation_refl].
    + exists s. split; [now repeat constructor | apply Permutation_refl].
  - destruct (IH1 s Hs) as (s1 & H1 & P1).
    destruct (IH2 s1 H1) as (s2 & H2 & P2).
    exists s2. split; [exact H2 | now apply Permutation_trans with s1].
Qed.

Lemma choose_perm {A : Type} (l l' : list A) (k : nat) :
  Permutation l l' ->
  forall s, In s (choose l k) ->
  exists s', In s' (choose l' k) /\ Permutation s s'.
Proof.
  intros HP s Hs. apply choose_sublist in Hs as [H1 H2].
  destruct (sublist_perm l l' HP s H1) as (s' & H3 & H4).
  exists s'. split; [|exact H4]. apply choose_sublist. split; [exact H3|].
  rewrite <- H2. symmetry. now apply Permutation_length.
Qed.

(** The sub-hands the six-card loop builds, in the order it builds them. *)
Lemma picks6_choose (l : list Z) :
  List.length l = 6%nat ->
  map (fun i => pick 6 (fun j => negb (Nat.eqb j i)) l) (seq 0 6)
  = rev (choose l 5).
Proof.
  destruct l as [|c0 [|c1 [|c2 [|c3 [|c4 [|c5 [|c6 t]]]]]]]; try discriminate.
  intros _. reflexivity.
Qed.

(** The sub-hands the seven-card loops build, in the order they build them. *)
Lemma picks7_choose (l : list Z) :
  List.length l = 7%nat ->
  flat_map
    (fun i =>
       map (fun j => pick 7 (fun k => negb (Nat.eqb k i) && negb (Nat.eqb k j)) l)
         (seq (i + 1) (7 - (i + 1))))
    (seq 0 6)
  = rev (choose l 5).
Proof.
  destruct l as [|c0 [|c1 [|c2 [|c3 [|c4 [|c5 [|c6 [|c7 t]]]]]]]];
    try discriminate.
  intros _. reflexivity.
Qed.

Lemma choose_count (l : list Z) :
  (List.length l = 6%nat -> List.length (choose l 5) = 6%nat) /\
  (List.length l = 7%nat -> List.length (choose l 5) = 21%nat).
Proof.
  split; intro H.
  - destruct l as [|c0 [|c1 [|c2 [|c3 [|c4 [|c5 [|c6 t]]]]]]]; try discriminate.
    reflexivity.
  - destruct l as [|c0 [|c1 [|c2 [|c3 [|c4 [|c5 [|c6 [|c7 t]]]]]]]];
      try discriminate.
    reflexivity.
Qed.

(** ** The best-hand loops *)

Lemma fold_left_map {A B C : Type} (g : A -> C -> A) (h : B -> C) (l : list B) :
  forall a, fold_left (fun a i => g a (h i)) l a = fold_left g (map h l) a.
Proof. induction l as [|x l IH]; intro a; simpl; [reflexivity | apply IH]. Qed.

Lemma fold_left_flat_map {A B C : Type} (g : A -> C -> A) (F : B -> list C)
    (l : list B) :
  forall a, fold_left (fun a i => fold_left g (F i) a) l a
            = fold_left g (flat_map F l) a.
Proof.
  induction l as [|x l IH]; intro a; simpl; [reflexivity|].
  now rewrite fold_left_app, IH.
Qed.

(** What the loop leaves in [bestHand]: it never exceeds the initial value
    nor any score that is a number, and it is one of them. *)
Lemma keepBest_fold (hands : list (option Z)) :
  forall b, let r := fold_left keepBest hands b in
    r <= b /\ (forall z, In (Some z) hands -> r <= z) /\
    (r = b \/ In (Some r) hands).
Proof.
  induction hands as [|h hands IH]; intro b; cbn [fold_left].
  - repeat split; [lia | intros z [] | now left].
  - destruct (IH (keepBest b h)) as (H1 & H2 & H3).
    assert (Hk : keepBest b h <= b /\
                 (forall z, h = Some z -> keepBest b h <= z) /\
                 (keepBest b h = b \/ Some (keepBest b h) = h)).
    { unfold keepBest. destruct h as [z|]; cbn [Js.lt Js.int].
      - destruct (z <? b) eqn:E;
          [apply Z.ltb_lt in E | apply Z.ltb_ge in E];
          (repeat split; [lia | intros ? [= <-]; lia | auto]).
      - repeat split; [lia | discriminate | now left]. }
    destruct Hk as (K1 & K2 & K3). repeat split.
    + lia.
    + intros z [E|Hz]; [specialize (K2 z E); lia | now apply H2].
    + destruct H3 as [H3|H3]; [|right; now right].
      rewrite H3. destruct K3 as [K3|K3]; [now left | right; now left].
Qed.

Lemma bestOf_ext (hands hands' : list (option Z)) :
  (forall v, In v hands <-> In v hands') -> bestOf hands = bestOf hands'.
Proof.
  intro H. unfold bestOf.
  destruct (keepBest_fold hands 9999) as (A1 & A2 & A3).
  destruct (keepBest_fold hands' 9999) as (B1 & B2 & B3).
  apply Z.le_antisymm.
  - destruct B3 as [->|B3]; [exact A1 | apply A2; now apply H].
  - destruct A3 as [->|A3]; [exact B1 | apply B2; now apply H].
Qed.

(** When every score is a number below 9999, the loop leaves their minimum. *)
Lemma bestOf_isMin (hands : list (option Z)) :
  hands <> [] ->
  (forall v, In v hands -> exists z, v = Some z /\ z < 9999) ->
  isMin (bestOf hands) hands.
Proof.
  intros Hne Hall. unfold bestOf, isMin.
  destruct (keepBest_fold hands 9999) as (A1 & A2 & A3). split.
  - destruct A3 as [A3|A3]; [|exact A3]. exfalso.
    destruct hands as [|h hands]; [now apply Hne|].
    destruct (Hall h (or_introl eq_refl)) as (z & -> & Hz).
    specialize (A2 z (or_introl eq_refl)). lia.
  - intros v Hv. destruct (Hall v Hv) as (z & -> & Hz).
    exists z. split; [reflexivity | now apply A2].
Qed.

(** ** Decoding the arguments of [evalHand] *)

Lemma pushCards_numOf (ns : list Z) :
  Forall validCard ns ->
  forall (fuel : nat) (allCards : list Z),
    (List.length ns <= fuel)%nat ->
    pushCards fuel (numOf ns) allCards = Return (allCards ++ rev ns).
Proof.
  induction ns as [|n ns IH] using rev_ind; intros H fuel allCards Hf.
  - destruct fuel; simpl; now rewrite app_nil_r.
  - apply Forall_app in H as [H1 H2]. inversion H2 as [|? ? Hn _]; subst.
    rewrite length_app in Hf. simpl in Hf.
    destruct fuel as [|fuel]; [lia|].
    destruct (numOf_snoc_digit ns n H1 Hn) as (E0 & Er & Ed).
    cbn [pushCards]. rewrite E0, Er, Ed.
    rewrite IH by (auto; lia).
    rewrite rev_app_distr, <- app_assoc. reflexivity.
Qed.

Lemma codeOf_numOf (cards : list Z) : codeOf cards = numOf (rev cards).
Proof.
  induction cards as [|c cards IH]; [reflexivity|].
  cbn [codeOf fold_right rev]. rewrite numOf_snoc. fold (codeOf cards).
  rewrite IH. ring.
Qed.

(** A hand of valid cards is what the digit loop reads off its code. *)
Lemma allCardsOf_codeOf (cards : list Z) (fuel : nat) :
  Forall validCard cards -> (List.length cards <= fuel)%nat ->
  allCardsOf fuel (ANum (codeOf cards)) None = Return cards.
Proof.
  intros Hv Hf. unfold allCardsOf. cbn [cardsNumOf bind].
  rewrite codeOf_numOf, pushCards_numOf.
  - cbn [bind app]. now rewrite rev_involutive.
  - now apply Forall_rev.
  - now rewrite length_rev.
Qed.

(** A string of valid cards decodes to its cards, last card first. *)
Lemma allCardsOf_string (cs : list string) (fuel : nat) :
  Forall (fun c => In c validCards) cs -> (List.length cs <= fuel)%nat ->
  allCardsOf fuel (AStr (String.concat "" cs)) None
  = Return (rev (map cardNumber cs)).
Proof.
  intros Hcs Hf. unfold allCardsOf. cbn [cardsNumOf].
  rewrite fromString_concat by exact Hcs. cbn [bind].
  rewrite pushCards_numOf.
  - reflexivity.
  - apply (map_cardNumber_valid cs Hcs).
  - now rewrite length_map.
Qed.

Lemma fromStringSingle_range (s : string) (n : Z) :
  fromStringSingle_ s = Return n -> 1 <= n <= 52.
Proof.
  unfold fromStringSingle_.
  set (c0 := Js.charAt s 0). set (c1 := Js.charAt s 1). clearbody c0 c1.
  assert (Hsuit : forall x,
            (if eqs c0 SPADE then Return 0
             else if eqs c0 HEART then Return 1
             else if eqs c0 DIAMOND then Return 2
             else if eqs c0 CLUB then Return 3
             else Throw (UnknownSuit c0)) = Return x -> 0 <= x <= 3).
  { intro x. repeat (destruct (eqs c0 _); [intros [= <-]; lia|]). discriminate. }
  assert (Hrank : forall x,
            (if Js.contains ["2"; "3"; "4"; "5"; "6"; "7"; "8"; "9"] c1
             then Return (Js.parseInt c1 - 2)
             else if eqs c1 "T" then Return 8
             else if eqs c1 "J" then Return 9
             else if eqs c1 "Q" then Return 10
             else if eqs c1 "K" then Return 11
             else if eqs c1 "A" then Return 12
             else Throw (WrongRank c1)) = Return x -> 0 <= x <= 12).
  { intro x. destruct (Js.contains _ c1) eqn:E.
    - destruct c1 as [d|]; [|discriminate]. cbn [Js.contains] in E.
      apply existsb_exists in E as (d' & Hin & Hd). apply String.eqb_eq in Hd.
      subst d'. intros [= <-].
      cbn [In] in Hin. repeat (destruct Hin as [<-|Hin]; [vm_compute; intuition discriminate|]).
      destruct Hin.
    - repeat (destruct (eqs c1 _); [intros [= <-]; lia|]). discriminate. }
  match goal with
  | |- bind ?m1 _ = _ -> _ => destruct m1 as [su| |] eqn:E1; try discriminate
  end.
  cbn [bind].
  match goal with
  | |- bind ?m2 _ = _ -> _ => destruct m2 as [rk| |] eqn:E2; try discriminate
  end.
  unfold bind. intro H.
  assert (En : n = su + 4 * rk + 1) by congruence.
  specialize (Hsuit su eq_refl). specialize (Hrank rk eq_refl). lia.
Qed.

Lemma fromStringSingle_no_loop (s : string) : fromStringSingle_ s <> OutOfFuel.
Proof.
  unfold fromStringSingle_.
  set (c0 := Js.charAt s 0). set (c1 := Js.charAt s 1). clearbody c0 c1.
  repeat match goal with
         | |- context [if ?b then _ else _] => destruct b
         end; cbn [bind]; discriminate.
Qed.

(** The loop of [fromString] keeps a code of as many digits as it has read. *)
Lemma fromString_fold_bound (s : string) (l : list nat) :
  forall acc k,
    0 <= acc < 53 ^ k -> 0 <= k ->
    (exists e,
       fold_left
         (fun acc i =>
            cardsNum <- acc ;;
            c <- fromStringSingle_ (String.substring (2 * i) 2 s) ;;
            Return (cardsNum * 53 + c)) l (Return acc) = Throw e) \/
    (exists n,
       fold_left
         (fun acc i =>
            cardsNum <- acc ;;
            c <- fromStringSingle_ (String.substring (2 * i) 2 s) ;;
            Return (cardsNum * 53 + c)) l (Return acc) = Return n /\
       0 <= n < 53 ^ (k + Z.of_nat (List.length l))).
Proof.
  induction l as [|i l IH]; intros acc k Hacc Hk.
  - right. exists acc. split; [reflexivity|].
    cbn [List.length Z.of_nat]. now rewrite Z.add_0_r.
  - cbn [fold_left bind].
    destruct (fromStringSingle_ (String.substring (2 * i) 2 s)) as [c|e|] eqn:E.
    + cbn [bind]. apply fromStringSingle_range in E.
      assert (Hs : 0 <= acc * 53 + c < 53 ^ (k + 1)).
      { rewrite Z.pow_add_r, Z.pow_1_r by lia. lia. }
      destruct (IH (acc * 53 + c) (k + 1) Hs ltac:(lia)) as [H|(n & H1 & H2)].
      * now left.
      * right. exists n. split; [exact H1|].
        replace (k + Z.of_nat (List.length (i :: l)))
          with (k + 1 + Z.of_nat (List.length l))
          by (cbn [List.length]; lia).
        exact H2.
    + left. exists e. cbn [bind]. clear. induction l; simpl; auto.
    + exfalso. now apply (fromStringSingle_no_loop _ E).
Qed.

Lemma fromString_bound (s : string) :
  (exists e, fromString s = Throw e) \/
  (exists n, fromString s = Return n /\
             0 <= n < 53 ^ Z.of_nat (String.length s / 2)).
Proof.
  unfold fromString. destruct (Nat.eqb (String.length s mod 2) 0).
  - destruct (fromString_fold_bound s (seq 0 (String.length s / 2)) 0 0
                ltac:(simpl; lia) ltac:(lia)) as [H|(n & H1 & H2)].
    + now left.
    + right. exists n. split; [exact H1|].
      now rewrite length_seq, Z.add_0_l in H2.
  - left. now eexists.
Qed.

(** With fuel for every digit the digit loop of [evalHand] returns. *)
Lemma pushCards_total (fuel : nat) :
  forall n allCards,
    0 <= n < 53 ^ Z.of_nat fuel ->
    exists ds, pushCards fuel n allCards = Return (allCards ++ ds).
Proof.
  induction fuel as [|fuel IH]; intros n allCards Hn.
  - cbn in Hn. assert (n = 0) by lia. subst. exists []. simpl.
    now rewrite app_nil_r.
  - cbn [pushCards]. destruct (n =? 0) eqn:E.
    + exists []. now rewrite app_nil_r.
    + apply Z.eqb_neq in E.
      assert (Hq : 0 <= n / 53 < 53 ^ Z.of_nat fuel).
      { split; [apply Z.div_pos; lia|].
        apply Z.div_lt_upper_bound; [lia|].
        rewrite Nat2Z.inj_succ, Z.pow_succ_r in Hn by lia. lia. }
      destruct (IH (n / 53) (allCards ++ [Z.rem n 53]) Hq) as (ds & H).
      exists (Z.rem n 53 :: ds). rewrite H. now rewrite <- app_assoc.
Qed.

Lemma wellFormed_decodes (fuel : nat) (a : arg) :
  wellFormed fuel a ->
  (exists e, cardsNumOf a = Throw e) \/
  (exists n, cardsNumOf a = Return n /\ 0 <= n < 53 ^ Z.of_nat fuel).
Proof.
  destruct a as [n|s]; cbn [wellFormed cardsNumOf]; intro H.
  - right. now exists n.
  - destruct (fromString_bound s) as [He|(n & H1 & H2)]; [now left|].
    right. exists n. split; [exact H1|]. split; [lia|].
    apply Z.lt_le_trans with (1 := proj2 H2).
    apply Z.pow_le_mono_r; lia.
Qed.

(** On arguments of the documented domain decoding never runs out of fuel:
    it raises a codec failure or returns the array of cards. *)
Lemma allCardsOf_total (fuel : nat) (a : arg) (b : option arg) :
  wellFormed fuel a -> wellFormedOpt fuel b ->
  (exists e, allCardsOf fuel a b = Throw e) \/
  (exists allCards, allCardsOf fuel a b = Return allCards).
Proof.
  intros Ha Hb. unfold allCardsOf.
  destruct (wellFormed_decodes fuel a Ha) as [(e & ->)|(n & -> & Hn)];
    [left; now exists e|].
  cbn [bind]. destruct (pushCards_total fuel n [] Hn) as (ds & ->).
  cbn [bind app]. destruct b as [x|]; [|right; now eexists].
  destruct (given (Some x)); [|right; now eexists].
  destruct (wellFormed_decodes fuel x Hb) as [(e & ->)|(m & -> & Hm)];
    [left; now exists e|].
  cbn [bind]. destruct (pushCards_total fuel m ds Hm) as (ds' & ->).
  right. now eexists.
Qed.

Lemma codeOf_nonneg (cards : list Z) : Forall validCard cards -> 0 <= codeOf cards.
Proof.
  intro H. rewrite codeOf_numOf. apply numOf_nonneg. now apply Forall_rev.
Qed.

Lemma map_cardString_valid (ns : list Z) :
  Forall validCard ns ->
  Forall (fun c => In c validCards) (map cardString ns) /\
  map cardNumber (map cardString ns) = ns.
Proof.
  induction 1 as [|n ns Hn _ [IH1 IH2]]; [split; [constructor | reflexivity]|].
  destruct (cardString_valid n Hn) as (_ & H2 & H3).
  split; [constructor; assumption | simpl; now rewrite H3, IH2].
Qed.

(** An argument that stands for valid cards decodes to their code, and the
    digit loop pushes them in order. *)
Lemma encodes_decodes (a : arg) (cards : list Z) (fuel : nat) :
  Forall validCard cards -> (List.length cards <= fuel)%nat ->
  encodes a cards ->
  cardsNumOf a = Return (codeOf cards) /\
  (forall allCards,
     pushCards fuel (codeOf cards) allCards = Return (allCards ++ cards)) /\
  given (Some a) = negb (Nat.eqb (List.length cards) 0).
Proof.
  intros Hv Hf He.
  assert (Hr : Forall validCard (rev cards)) by now apply Forall_rev.
  destruct (map_cardString_valid (rev cards) Hr) as [Hs1 Hs2].
  split; [|split].
  - destruct He as [->| ->]; [reflexivity|]. cbn [cardsNumOf].
    rewrite fromString_concat by exact Hs1.
    now rewrite Hs2, codeOf_numOf.
  - intro allCards. rewrite codeOf_numOf, pushCards_numOf.
    + now rewrite rev_involutive.
    + exact Hr.
    + now rewrite length_rev.
  - destruct He as [->| ->]; cbn [given]; f_equal.
    + destruct cards as [|c cards]; [reflexivity|].
      inversion Hv as [|? ? Hc Hcs]; subst.
      pose proof (codeOf_nonneg cards Hcs) as H0.
      cbn [codeOf fold_right List.length Nat.eqb]. fold (codeOf cards).
      apply Z.eqb_neq. unfold validCard in Hc. lia.
    + pose proof (concat_cards_length _ Hs1) as HL.
      rewrite length_map, length_rev in HL.
      destruct cards as [|c cards].
      * reflexivity.
      * cbn [List.length Nat.eqb]. apply String.eqb_neq. intro E.
        rewrite E in HL. cbn [List.length String.length] in HL. lia.
Qed.

(** Arguments that stand for a hand of valid cards decode to that hand. *)
Lemma represents_allCardsOf
    (a : arg) (b : option arg) (cards : list Z) (fuel : nat) :
  Forall validCard cards -> (List.length cards <= fuel)%nat ->
  represents a b cards ->
  allCardsOf fuel a b = Return cards.
Proof.
  intros Hv Hf (l1 & l2 & -> & Ha & Hb).
  apply Forall_app in Hv as [Hv1 Hv2]. rewrite length_app in Hf.
  destruct (encodes_decodes a l1 fuel Hv1 ltac:(lia) Ha) as (E1 & P1 & _).
  unfold allCardsOf. rewrite E1. cbn [bind]. rewrite P1. cbn [bind app].
  destruct b as [x|]; [|subst l2; now rewrite app_nil_r].
  destruct (encodes_decodes x l2 fuel Hv2 ltac:(lia) Hb) as (E2 & P2 & G).
  rewrite G. destruct l2 as [|c l2]; cbn [List.length Nat.eqb negb].
  - now rewrite app_nil_r.
  - rewrite E2. cbn [bind]. apply P2.
Qed.

(** Two arguments that stand for valid cards decode to the cards of the
    first followed by those of the second, given fuel for the longer one. *)
Lemma encodes_allCardsOf
    (a : arg) (b : option arg) (l1 l2 : list Z) (fuel : nat) :
  Forall validCard l1 -> Forall validCard l2 ->
  (List.length l1 <= fuel)%nat -> (List.length l2 <= fuel)%nat ->
  encodes a l1 ->
  match b with
  | Some x => encodes x l2
  | None => l2 = []
  end ->
  allCardsOf fuel a b = Return (l1 ++ l2).
Proof.
  intros Hv1 Hv2 Hf1 Hf2 Ha Hb.
  destruct (encodes_decodes a l1 fuel Hv1 Hf1 Ha) as (E1 & P1 & _).
  unfold allCardsOf. rewrite E1. cbn [bind]. rewrite P1. cbn [bind app].
  destruct b as [x|]; [|subst l2; now rewrite app_nil_r].
  destruct (encodes_decodes x l2 fuel Hv2 Hf2 Hb) as (E2 & P2 & G).
  rewrite G. destruct l2 as [|c l2]; cbn [List.length Nat.eqb negb].
  - now rewrite app_nil_r.
  - rewrite E2. cbn [bind]. apply P2.
Qed.

Section Search.

Variable UNIQUE5 : Z -> option Z.
Variable RANK_PRIMES : Z -> option Z.
Variable PAIR : Z -> option Z.
Variable PAIR_ADJUST : Z -> option Z.

Local Abbreviation eval5 := (eval5Cards_ UNIQUE5 RANK_PRIMES PAIR PAIR_ADJUST).
Local Abbreviation evalH := (evalHand UNIQUE5 RANK_PRIMES PAIR PAIR_ADJUST).

Lemma map_flat_map {A B C : Type} (f : B -> C) (G : A -> list B) (l : list A) :
  flat_map (fun i => map f (G i)) l = map f (flat_map G l).
Proof.
  induction l as [|x l IH]; simpl; [reflexivity|].
  now rewrite map_app, IH.
Qed.

Lemma fold_left_pointwise {A B : Type} (f g : A -> B -> A) (l : list B) :
  (forall a x, f a x = g a x) ->
  forall a, fold_left f l a = fold_left g l a.
Proof.
  intro H. induction l as [|x l IH]; intro a; simpl; [reflexivity|].
  now rewrite H, IH.
Qed.

Lemma best6_scores (l : list Z) :
  List.length l = 6%nat ->
  best6 UNIQUE5 RANK_PRIMES PAIR PAIR_ADJUST l
  = bestOf (map eval5 (rev (choose l 5))).
Proof.
  intro H. unfold best6, bestOf.
  rewrite (fold_left_map keepBest
             (fun i => eval5 (pick 6 (fun j => negb (Nat.eqb j i)) l))).
  rewrite <- (picks6_choose l H), map_map. reflexivity.
Qed.

Lemma best7_scores (l : list Z) :
  List.length l = 7%nat ->
  best7 UNIQUE5 RANK_PRIMES PAIR PAIR_ADJUST l
  = bestOf (map eval5 (rev (choose l 5))).
Proof.
  intro H. unfold best7, bestOf.
  rewrite <- (picks7_choose l H), <- map_flat_map.
  rewrite <- fold_left_flat_map.
  apply fold_left_pointwise. intros b i.
  rewrite map_map. apply fold_left_map.
Qed.

(** The two search branches return the same value on the scores of
    [choose allCards 5], whatever the order of enumeration. *)
Lemma evalCards_search (l : list Z) :
  List.length l = 6%nat \/ List.length l = 7%nat ->
  evalCards UNIQUE5 RANK_PRIMES PAIR PAIR_ADJUST l
  = Return (Some (bestOf (map eval5 (choose l 5)))).
Proof.
  intro H.
  assert (E : bestOf (map eval5 (rev (choose l 5)))
              = bestOf (map eval5 (choose l 5))).
  { apply bestOf_ext. intro v. rewrite !in_map_iff.
    split; intros (s & Hs & Hin); exists s; (split; [exact Hs|]);
      now apply in_rev in Hin || apply -> in_rev in Hin. }
  unfold evalCards. destruct H as [H|H]; rewrite H; cbn [Nat.eqb].
  - now rewrite best6_scores, E.
  - now rewrite best7_scores, E.
Qed.

(** C1. For a hand of 6 or 7 cards on whose five-card sub-hands the scorer
    yields a strength (a number below the initial [bestHand] of 9999),
    [evalHand] returns the minimum [m] of the scorer over all five-card
    sub-hands: the 6 sub-lists omitting one card, or the 21 omitting two.
    This holds for every call whose arguments decode to the hand, and, when
    the cards are in [1,52], for every pair of arguments that stands for the
    hand, with fuel for seven digits.  For such cards the scorer's value on a
    sub-hand is what [evalHand] returns on that sub-hand alone, so [m] is
    also the minimum of [evalHand] over the sub-hands. *)
Theorem evalHand_min_over_subsets (allCards : list Z) :
  List.length allCards = 6%nat \/ List.length allCards = 7%nat ->
  (forall s, In s (choose allCards 5) -> exists z, eval5 s = Some z /\ z < 9999) ->
  exists m,
    isMin m (map eval5 (choose allCards 5)) /\
    (forall fuel a b,
       allCardsOf fuel a b = Return allCards ->
       evalH fuel a b = Return (Some m)) /\
    (Forall validCard allCards ->
     forall fuel a b, (7 <= fuel)%nat -> represents a b allCards ->
       evalH fuel a b = Return (Some m)) /\
    (forall s, In s (choose allCards 5)
               <-> sublist s allCards /\ List.length s = 5%nat) /\
    (List.length allCards = 6%nat -> List.length (choose allCards 5) = 6%nat) /\
    (List.length allCards = 7%nat -> List.length (choose allCards 5) = 21%nat) /\
    (Forall validCard allCards ->
     forall s fuel, In s (choose allCards 5) -> (5 <= fuel)%nat ->
       evalH fuel (ANum (codeOf s)) None = Return (eval5 s)).
Proof.
  intros Hlen Hscore.
  exists (bestOf (map eval5 (choose allCards 5))).
  assert (Hdec : forall fuel a b,
            allCardsOf fuel a b = Return allCards ->
            evalH fuel a b
            = Return (Some (bestOf (map eval5 (choose allCards 5))))).
  { intros fuel a b Hd. unfold evalHand. rewrite Hd. cbn [bind].
    now apply evalCards_search. }
  split; [|split; [|split; [|split; [|split; [|split]]]]].
  - apply bestOf_isMin.
    + destruct (choose_count allCards) as [C6 C7].
      intro E. apply (f_equal (@List.length _)) in E. rewrite length_map in E.
      destruct Hlen as [H|H]; [rewrite (C6 H) in E | rewrite (C7 H) in E];
        discriminate.
    + intros v Hv. apply in_map_iff in Hv as (s & <- & Hs). now apply Hscore.
  - exact Hdec.
  - intros Hv fuel a b Hf Hr. apply Hdec.
    apply represents_allCardsOf; [exact Hv | | exact Hr].
    destruct Hlen as [H|H]; rewrite H; lia.
  - intro s. apply choose_sublist.
  - apply choose_count.
  - apply choose_count.
  - intros Hv s fuel Hs Hf. apply choose_sublist in Hs as [Hsub Hl].
    assert (Hvs : Forall validCard s).
    { clear - Hsub Hv. induction Hsub; [constructor| |];
        inversion Hv; subst; [constructor|]; auto. }
    unfold evalHand. rewrite allCardsOf_codeOf by (auto; lia).
    cbn [bind]. unfold evalCards. rewrite Hl. reflexivity.
Qed.

(** C8. For one or two arguments that stand for sequences of cards of
    [1,52], as codes or as strings, of at most nine cards each (so that
    every code stays below 2^53), and fuel for nine digits: when the
    combined number of cards is not 5, 6 or 7, [evalHand] raises the
    card-count failure, carrying that number, and returns nothing; when it
    is 5, 6 or 7, [evalHand] returns. *)
Theorem evalHand_card_count
    (fuel : nat) (a : arg) (b : option arg) (l1 l2 : list Z) :
  Forall validCard l1 -> Forall validCard l2 ->
  (List.length l1 <= 9)%nat -> (List.length l2 <= 9)%nat ->
  (9 <= fuel)%nat ->
  encodes a l1 ->
  match b with
  | Some x => encodes x l2
  | None => l2 = []
  end ->
  (List.length (l1 ++ l2) <> 5%nat /\ List.length (l1 ++ l2) <> 6%nat /\
   List.length (l1 ++ l2) <> 7%nat ->
   evalH fuel a b = Throw (WrongCardCount (List.length (l1 ++ l2)))) /\
  (List.length (l1 ++ l2) = 5%nat \/ List.length (l1 ++ l2) = 6%nat \/
   List.length (l1 ++ l2) = 7%nat ->
   exists r, evalH fuel a b = Return r).
Proof.
  intros Hv1 Hv2 H1 H2 Hf Ha Hb.
  assert (Hdec : allCardsOf fuel a b = Return (l1 ++ l2))
    by (apply encodes_allCardsOf; try assumption; lia).
  unfold evalHand. rewrite Hdec. cbn [bind]. unfold evalCards. split.
  - intros (H5 & H6 & H7).
    apply Nat.eqb_neq in H5, H6, H7. now rewrite H5, H6, H7.
  - intros [H|[H|H]]; rewrite H; cbn [Nat.eqb]; eexists; reflexivity.
Qed.

(** C9. [evalHand] depends on the multiset of decoded cards only.  Two
    calls whose arguments decode to permutations of one another have the
    same outcome; in particular, for 5 to 7 cards of [1,52], any two pairs
    of arguments (codes or strings, split in any way) that stand for two
    orderings of the cards return the same value. *)
Theorem evalHand_permutation (allCards allCards' : list Z) :
  Permutation allCards allCards' ->
  (forall fuel fuel' a a' b b',
     allCardsOf fuel a b = Return allCards ->
     allCardsOf fuel' a' b' = Return allCards' ->
     evalH fuel a b = evalH fuel' a' b') /\
  (Forall validCard allCards ->
   (5 <= List.length allCards <= 7)%nat ->
   forall fuel fuel' a a' b b',
     (7 <= fuel)%nat -> (7 <= fuel')%nat ->
     represents a b allCards -> represents a' b' allCards' ->
     exists r, evalH fuel a b = Return r /\ evalH fuel' a' b' = Return r).
Proof.
  intro HP.
  pose proof (Permutation_length HP) as Hlen.
  assert (Hsub : forall l l', Permutation l l' ->
            forall v, In v (map eval5 (choose l 5)) ->
                      In v (map eval5 (choose l' 5))).
  { intros l l' P v Hv. apply in_map_iff in Hv as (s & <- & Hs).
    destruct (choose_perm l l' 5 P s Hs) as (s' & Hs' & Ps).
    apply in_map_iff. exists s'. split; [|exact Hs'].
    symmetry. apply eval5Cards_perm; [|exact Ps].
    now apply choose_sublist in Hs as [_ Hs]. }
  assert (Hbest : bestOf (map eval5 (choose allCards 5))
                  = bestOf (map eval5 (choose allCards' 5))).
  { apply bestOf_ext. intro v. split; apply Hsub;
      [exact HP | now apply Permutation_sym]. }
  assert (Hcards : evalCards UNIQUE5 RANK_PRIMES PAIR PAIR_ADJUST allCards
                   = evalCards UNIQUE5 RANK_PRIMES PAIR PAIR_ADJUST allCards').
  { destruct (Nat.eq_dec (List.length allCards) 5) as [H5|H5].
    - unfold evalCards. rewrite <- Hlen, H5. cbn [Nat.eqb].
      f_equal. now apply eval5Cards_perm.
    - destruct (Nat.eq_dec (List.length allCards) 6) as [H6|H6];
        [|destruct (Nat.eq_dec (List.length allCards) 7) as [H7|H7]].
      + rewrite !evalCards_search by (left; congruence). now rewrite Hbest.
      + rewrite !evalCards_search by (right; congruence). now rewrite Hbest.
      + unfold evalCards. rewrite <- Hlen.
        apply Nat.eqb_neq in H5, H6, H7. now rewrite H5, H6, H7. }
  assert (Hdec : forall fuel fuel' a a' b b',
            allCardsOf fuel a b = Return allCards ->
            allCardsOf fuel' a' b' = Return allCards' ->
            evalH fuel a b = evalH fuel' a' b').
  { intros fuel fuel' a a' b b' Hd Hd'. unfold evalHand.
    rewrite Hd, Hd'. cbn [bind]. exact Hcards. }
  split; [exact Hdec|].
  intros Hv Hl fuel fuel' a a' b b' Hf Hf' Hr Hr'.
  assert (Hv' : Forall validCard allCards').
  { apply Forall_forall. intros c Hc. rewrite Forall_forall in Hv.
    apply Hv. apply Permutation_in with (l := allCards');
      [now apply Permutation_sym | exact Hc]. }
  assert (Hd : allCardsOf fuel a b = Return allCards)
    by (apply represents_allCardsOf; [exact Hv | lia | exact Hr]).
  assert (Hd' : allCardsOf fuel' a' b' = Return allCards')
    by (apply represents_allCardsOf; [exact Hv' | lia | exact Hr']).
  rewrite <- (Hdec fuel fuel' a a' b b' Hd Hd').
  assert (Hret : exists r, evalH fuel a b = Return r).
  { unfold evalHand. rewrite Hd. cbn [bind]. unfold evalCards.
    assert (Hc : List.length allCards = 5%nat \/ List.length allCards = 6%nat
                 \/ List.length allCards = 7%nat) by lia.
    destruct Hc as [H|[H|H]]; rewrite H; cbn [Nat.eqb]; eexists; reflexivity. }
  destruct Hret as (r & Hret). exists r. now split.
Qed.

(** C10. A falsy second argument is the same as none: with the number 0 or
    the empty string in second position, [evalHand] behaves as on the first
    argument alone, whatever the first argument; 0 and the empty string are
    the only arguments the guard [if (opt_otherCardsNumOrStr)] skips. *)
Theorem evalHand_falsy_second (fuel : nat) (c : arg) :
  evalH fuel c (Some (ANum 0)) = evalH fuel c None /\
  evalH fuel c (Some (AStr "")) = evalH fuel c None /\
  (forall x, given (Some x) = false <-> x = ANum 0 \/ x = AStr "").
Proof.
  split; [reflexivity|]. split; [reflexivity|].
  intros [n|s]; cbn [given]; rewrite negb_false_iff; split.
  - intro H. apply Z.eqb_eq in H. left. now subst.
  - intros [[= ->]|H]; [reflexivity | discriminate H].
  - intro H. apply String.eqb_eq in H. right. now subst.
  - intros [H|[= ->]]; [discriminate H | reflexivity].
Qed.

End Search.

Lemma evalHand_min_over_subsets_witness :
  exists m,
    isMin m
      (map (eval5Cards_ sample_UNIQUE5 sample_RANK_PRIMES sample_PAIR
              sample_PAIR_ADJUST)
         (choose [45; 49; 25; 29; 33; 37; 41] 5)) /\
    sample_evalHand 7 (AStr "sAsK") (Some (AStr "sQsJsTs9s8")) = Return (Some m).
Proof.
  destruct (evalHand_min_over_subsets sample_UNIQUE5 sample_RANK_PRIMES
              sample_PAIR sample_PAIR_ADJUST [45; 49; 25; 29; 33; 37; 41])
    as (m & H1 & H2 & _).
  - right. reflexivity.
  - apply Forall_forall.
    repeat (apply Forall_cons;
            [eexists; split; [vm_compute; reflexivity | reflexivity]|]).
    apply Forall_nil.
  - exists m. split; [exact H1|]. apply H2. vm_compute. reflexivity.
Defined.

Lemma evalHand_card_count_witness :
  sample_evalHand 9 (AStr "sAsKsQsJ") None = Throw (WrongCardCount 4) /\
  sample_evalHand 9 (AStr "sAsKsQsJ") (Some (ANum (codeOf [25; 29; 33; 37])))
  = Throw (WrongCardCount 8) /\
  exists r, sample_evalHand 9 (AStr "sAsK") (Some (AStr "sQsJsT")) = Return r.
Proof.
  assert (V : forall l, forallb (fun c => (1 <=? c) && (c <=? 52)) l = true ->
                        Forall validCard l).
  { intros l H. apply Forall_forall. intros c Hc.
    rewrite forallb_forall in H. specialize (H c Hc). unfold validCard. lia. }
  split; [|split].
  - apply (proj1 (evalHand_card_count sample_UNIQUE5 sample_RANK_PRIMES
                    sample_PAIR sample_PAIR_ADJUST 9 (AStr "sAsKsQsJ") None
                    [37; 41; 45; 49] []
                    (V [37; 41; 45; 49] eq_refl) (V [] eq_refl)
                    ltac:(simpl; lia) ltac:(simpl; lia) ltac:(lia)
                    (or_intror eq_refl) eq_refl)).
    simpl. lia.
  - apply (proj1 (evalHand_card_count sample_UNIQUE5 sample_RANK_PRIMES
                    sample_PAIR sample_PAIR_ADJUST 9 (AStr "sAsKsQsJ")
                    (Some (ANum (codeOf [25; 29; 33; 37])))
                    [37; 41; 45; 49] [25; 29; 33; 37]
                    (V [37; 41; 45; 49] eq_refl) (V [25; 29; 33; 37] eq_refl)
                    ltac:(simpl; lia) ltac:(simpl; lia) ltac:(lia)
                    (or_intror eq_refl) (or_introl eq_refl))).
    simpl. lia.
  - apply (proj2 (evalHand_card_count sample_UNIQUE5 sample_RANK_PRIMES
                    sample_PAIR sample_PAIR_ADJUST 9 (AStr "sAsK")
                    (Some (AStr "sQsJsT"))
                    [45; 49] [33; 37; 41]
                    (V [45; 49] eq_refl) (V [33; 37; 41] eq_refl)
                    ltac:(simpl; lia) ltac:(simpl; lia) ltac:(lia)
                    (or_intror eq_refl) (or_intror eq_refl))).
    left. reflexivity.
Defined.

Lemma evalHand_permutation_witness :
  exists r,
    sample_evalHand 7 (AStr "sAsK") (Some (AStr "sQsJsTs9s8")) = Return r /\
    sample_evalHand 7 (ANum (codeOf [25; 29; 33; 37; 41])) (Some (AStr "sAsK"))
    = Return r.
Proof.
  apply (proj2 (evalHand_permutation sample_UNIQUE5 sample_RANK_PRIMES
                  sample_PAIR sample_PAIR_ADJUST
                  ([45; 49] ++ [25; 29; 33; 37; 41])
                  ([25; 29; 33; 37; 41] ++ [45; 49])
                  (Permutation_app_comm _ _))).
  - repeat (apply Forall_cons; [unfold validCard; lia|]). apply Forall_nil.
  - simpl. lia.
  - lia.
  - lia.
  - exists [45; 49], [25; 29; 33; 37; 41].
    split; [reflexivity|]. split; right; reflexivity.
  - exists [25; 29; 33; 37; 41], [45; 49].
    split; [reflexivity|]. split; [left | right]; reflexivity.
Defined.

(** * Further properties of the codec *)

(** ** Single cards: layout and failures *)

(** X1. The card numbers follow the documented layout: the card of suit
    number [i] (spade, heart, diamond, club) and rank number [j] (Two up to
    Ace) is the integer [i + 4 * j + 1], in both directions. *)
Theorem card_layout (i j : nat) :
  (i < 4)%nat -> (j < 13)%nat ->
  fromStringSingle_ (String.append (nth i suitChars "") (nth j rankChars ""))
  = Return (Z.of_nat i + 4 * Z.of_nat j + 1) /\
  toStringSingle_ (Z.of_nat i + 4 * Z.of_nat j + 1)
  = Return (String.append (nth i suitChars "") (nth j rankChars "")).
Proof.
  intros Hi Hj.
  assert (Ei : In i (seq 0 4)) by (apply in_seq; lia).
  assert (Ej : In j (seq 0 13)) by (apply in_seq; lia).
  cbn [seq In] in Ei, Ej.
  repeat (destruct Ei as [<-|Ei]; [|]); try contradiction;
    repeat (destruct Ej as [<-|Ej]; [|]); try contradiction;
    split; reflexivity.
Qed.

Lemma card_layout_witness :
  fromStringSingle_ "cQ" = Return 44 /\ toStringSingle_ 44 = Return "cQ".
Proof. apply (card_layout 3 10); lia. Defined.

(** X2. On the integers of magnitude below 2^53, [toStringSingle_] raises
    its rank assertion exactly on those below -3 and above 52, with the rank
    number it computed in the message; on -3 to 52 it returns a string. *)
Theorem toStringSingle_fails_iff (n : Z) (e : error) :
  - maxExact < n < maxExact ->
  (toStringSingle_ n = Throw e
   <-> (n < -3 \/ 52 < n) /\ e = WrongRankNum ((n - 1) / 4 + 2)) /\
  (-3 <= n <= 52 -> exists s, toStringSingle_ n = Return s).
Proof.
  intros _.
  assert (R : -3 <= n <= 52 -> exists s, toStringSingle_ n = Return s).
  { intro H. destruct (Z_lt_dec n 1) as [S|S].
    - assert (E : n = 0 \/ n = -1 \/ n = -2 \/ n = -3) by lia.
      destruct E as [->|[->|[->| ->]]]; eexists; reflexivity.
    - destruct (toStringSingle_fromStringSingle n ltac:(lia)) as (s & Hs & _).
      now exists s. }
  split; [|exact R]. split.
  - intro H.
    destruct (Z_lt_dec n (-3)) as [L|L]; [|destruct (Z_lt_dec 52 n) as [G|G]].
    + rewrite toStringSingle_throws in H by (left; exact L).
      split; [left; exact L | congruence].
    + rewrite toStringSingle_throws in H by (right; exact G).
      split; [right; exact G | congruence].
    + exfalso. destruct (R ltac:(lia)) as (s & Hs). congruence.
  - intros [Hn ->]. now apply toStringSingle_throws.
Qed.

Lemma ascii_enum (a : ascii) : In a (map ascii_of_nat (seq 0 256)).
Proof.
  rewrite <- (ascii_nat_embedding a). apply in_map. apply in_seq.
  pose proof (nat_ascii_bounded a). lia.
Qed.

Lemma forall_ascii (P : ascii -> bool) :
  forallb P (map ascii_of_nat (seq 0 256)) = true -> forall a, P a = true.
Proof.
  intros H a. rewrite forallb_forall in H. apply H, ascii_enum.
Qed.

Lemma existsb_eqb_In (x : string) (l : list string) :
  existsb (String.eqb x) l = true <-> In x l.
Proof.
  rewrite existsb_exists. split.
  - intros (y & Hy & E). apply String.eqb_eq in E. now subst.
  - intro H. exists x. split; [exact H | apply String.eqb_refl].
Qed.

Lemma validCards_two_chars (c : string) :
  In c validCards -> exists a b, c = String a (String b EmptyString).
Proof.
  intro H. destruct (fromStringSingle_toStringSingle c H) as (_ & _ & _ & _ & L).
  destruct c as [|a [|b [|x c]]]; try discriminate. now exists a, b.
Qed.

(** [fromStringSingle_] reads the first two characters only. *)
Lemma fromStringSingle_prefix (a b : ascii) (rest : string) :
  fromStringSingle_ (String a (String b rest))
  = fromStringSingle_ (String a (String b EmptyString)).
Proof. unfold fromStringSingle_, Js.charAt. cbn [String.get]. reflexivity. Qed.

(** The outcome on every one-character string, checked character by
    character. *)
Lemma fromStringSingle_one_char (a : ascii) :
  let sa := existsb (String.eqb (String a EmptyString)) suitChars in
  match fromStringSingle_ (String a EmptyString) with
  | Throw (UnknownSuit (Some x)) => negb sa && String.eqb x (String a EmptyString)
  | Throw (WrongRank None) => sa
  | _ => false
  end = true.
Proof. revert a. apply forall_ascii. vm_compute. reflexivity. Qed.

(** The outcome on every two-character string, checked pair by pair. *)
Lemma fromStringSingle_two_chars (a b : ascii) :
  let c := String a (String b EmptyString) in
  let sa := existsb (String.eqb (String a EmptyString)) suitChars in
  let valid := existsb (String.eqb c) validCards in
  implb valid sa &&
  match fromStringSingle_ c with
  | Return n => valid
  | Throw (UnknownSuit (Some x)) => negb sa && String.eqb x (String a EmptyString)
  | Throw (WrongRank (Some y)) =>
      sa && negb valid && String.eqb y (String b EmptyString)
  | _ => false
  end = true.
Proof.
  revert b. revert a.
  assert (H : forallb
                (fun a => forallb
                   (fun b =>
                      let c := String a (String b EmptyString) in
                      let sa := existsb (String.eqb (String a EmptyString)) suitChars in
                      let valid := existsb (String.eqb c) validCards in
                      implb valid sa &&
                      match fromStringSingle_ c with
                      | Return n => valid
                      | Throw (UnknownSuit (Some x)) =>
                          negb sa && String.eqb x (String a EmptyString)
                      | Throw (WrongRank (Some y)) =>
                          sa && negb valid && String.eqb y (String b EmptyString)
                      | _ => false
                      end)
                   (map ascii_of_nat (seq 0 256)))
                (map ascii_of_nat (seq 0 256)) = true)
    by (vm_compute; reflexivity).
  intros a b. rewrite forallb_forall in H. specialize (H a (ascii_enum a)).
  rewrite forallb_forall in H. exact (H b (ascii_enum b)).
Qed.

Lemma charAt_0 (a : ascii) (s : string) :
  Js.charAt (String a s) 0 = Some (String a EmptyString).
Proof. reflexivity. Qed.

Lemma charAt_1 (a b : ascii) (s : string) :
  Js.charAt (String a (String b s)) 1 = Some (String b EmptyString).
Proof. reflexivity. Qed.

Lemma suitFirst_iff (a : ascii) (s : string) :
  suitFirst (String a s)
  <-> existsb (String.eqb (String a EmptyString)) suitChars = true.
Proof.
  unfold suitFirst. rewrite charAt_0, existsb_eqb_In. split.
  - intros (c & [= <-] & H). exact H.
  - intro H. eexists. split; [reflexivity | exact H].
Qed.

Lemma cardFirst_iff (a b : ascii) (s : string) :
  cardFirst (String a (String b s))
  <-> existsb (String.eqb (String a (String b EmptyString))) validCards = true.
Proof.
  unfold cardFirst. rewrite existsb_eqb_In. split.
  - intros (c & rest & Hc & E).
    destruct (validCards_two_chars c Hc) as (x & y & ->).
    cbn [String.append] in E. injection E as -> -> _. exact Hc.
  - intro H. exists (String a (String b EmptyString)), s. split; [exact H | reflexivity].
Qed.

(** The three outcomes of [fromStringSingle_], by the shape of the string. *)
Lemma fromStringSingle_cases (s : string) :
  (exists c rest, In c validCards /\ s = String.append c rest /\
                  fromStringSingle_ s = Return (cardNumber c)) \/
  (~ suitFirst s /\ fromStringSingle_ s = Throw (UnknownSuit (Js.charAt s 0))) \/
  (suitFirst s /\ ~ cardFirst s /\
   fromStringSingle_ s = Throw (WrongRank (Js.charAt s 1))).
Proof.
  destruct s as [|a [|b rest]].
  - right. left. split; [|reflexivity]. intros (c & H & _). discriminate H.
  - pose proof (fromStringSingle_one_char a) as H. cbv zeta in H.
    right. rewrite suitFirst_iff.
    destruct (fromStringSingle_ (String a EmptyString)) as [n|e|] eqn:E;
      [discriminate | | discriminate].
    destruct e as [|[x|]|[y|]| |]; try discriminate.
    + apply andb_prop in H as [H1 H2]. apply negb_true_iff in H1.
      apply String.eqb_eq in H2. subst x. left.
      split; [now rewrite H1 | reflexivity].
    + right. split; [exact H|]. split; [|reflexivity].
      intros (c & r & Hc & Ec). destruct (validCards_two_chars c Hc) as (x & y & ->).
      discriminate Ec.
  - pose proof (fromStringSingle_two_chars a b) as H. cbv zeta in H.
    rewrite fromStringSingle_prefix, suitFirst_iff, cardFirst_iff, charAt_0, charAt_1.
    apply andb_prop in H as [H0 H].
    destruct (fromStringSingle_ (String a (String b EmptyString)))
      as [n|e|] eqn:E; [ | | discriminate].
    + left. exists (String a (String b EmptyString)), rest.
      split; [now apply existsb_eqb_In|]. split; [reflexivity|].
      unfold cardNumber. now rewrite E.
    + right. destruct e as [|[x|]|[y|]| |]; try discriminate.
      * apply andb_prop in H as [H1 H2]. apply negb_true_iff in H1.
        apply String.eqb_eq in H2. subst x. left.
        split; [now rewrite H1 | reflexivity].
      * apply andb_prop in H as [H1 H3]. apply andb_prop in H1 as [H1 H2].
        apply negb_true_iff in H2. apply String.eqb_eq in H3. subst y. right.
        split; [exact H1|]. split; [now rewrite H2 | reflexivity].
Qed.

Lemma cardFirst_suitFirst (s : string) : cardFirst s -> suitFirst s.
Proof.
  intros (c & rest & Hc & ->).
  destruct (validCards_two_chars c Hc) as (a & b & ->).
  cbn [String.append]. apply suitFirst_iff.
  pose proof (fromStringSingle_two_chars a b) as H. cbv zeta in H.
  apply andb_prop in H as [H _].
  apply existsb_eqb_In in Hc. rewrite Hc in H. exact H.
Qed.

Lemma card_prefix_unique (c c' rest rest' : string) :
  In c validCards -> In c' validCards ->
  String.append c rest = String.append c' rest' -> c = c' /\ rest = rest'.
Proof.
  intros Hc Hc' E.
  destruct (validCards_two_chars c Hc) as (a & b & ->).
  destruct (validCards_two_chars c' Hc') as (a' & b' & ->).
  cbn [String.append] in E. injection E as -> -> ->. now split.
Qed.

(** X3. [fromStringSingle_] returns exactly on the strings that begin with
    one of the 52 card strings, whatever follows the second character, and
    returns that card's number.  The suit is checked first: a string whose
    first character is no suit character fails with the suit failure even
    when its rank is wrong too; a string with a suit but no valid card fails
    with the rank failure. *)
Theorem fromStringSingle_outcome (s : string) :
  (forall n, fromStringSingle_ s = Return n
             <-> exists c rest, In c validCards /\ s = String.append c rest /\
                                cardNumber c = n) /\
  (~ suitFirst s -> fromStringSingle_ s = Throw (UnknownSuit (Js.charAt s 0))) /\
  (suitFirst s -> ~ cardFirst s ->
   fromStringSingle_ s = Throw (WrongRank (Js.charAt s 1))).
Proof.
  destruct (fromStringSingle_cases s)
    as [(c & rest & Hc & Es & E)|[(Hs & E)|(Hs & Hc & E)]].
  - assert (CF : cardFirst s) by (exists c, rest; now split).
    split; [|split].
    + intro n. rewrite E. split.
      * intros [= <-]. now exists c, rest.
      * intros (c' & rest' & Hc' & Es' & <-). rewrite Es in Es'.
        now destruct (card_prefix_unique c c' rest rest' Hc Hc' Es') as [<- _].
    + intro H. exfalso. now apply H, cardFirst_suitFirst.
    + intros _ H. now exfalso.
  - split; [|split].
    + intro n. rewrite E. split; [discriminate|].
      intros (c & rest & Hc & Es & _). exfalso. apply Hs, cardFirst_suitFirst.
      now exists c, rest.
    + intros _. exact E.
    + intro H. now exfalso.
  - split; [|split].
    + intro n. rewrite E. split; [discriminate|].
      intros (c & rest & Hc' & Es & _). exfalso. apply Hc. now exists c, rest.
    + intro H. now exfalso.
    + intros _ _. exact E.
Qed.

Lemma fromStringSingle_outcome_witness :
  fromStringSingle_ "zA" = Throw (UnknownSuit (Js.charAt "zA" 0)).
Proof.
  apply (proj1 (proj2 (fromStringSingle_outcome "zA"))).
  intros (c & H & Hin). injection H as <-.
  cbn in Hin. intuition discriminate.
Defined.

(** ** Sequences: what [fromString] accepts and how it fails *)

Lemma chunks2_even (k : nat) :
  forall s, String.length s = (2 * k)%nat ->
    String.concat "" (chunks2 s) = s /\
    Forall (fun c => String.length c = 2%nat) (chunks2 s) /\
    List.length (chunks2 s) = k.
Proof.
  induction k as [|k IH]; intros s H.
  - destruct s; [|discriminate]. repeat split. constructor.
  - destruct s as [|a [|b rest]]; try (cbn in H; lia).
    cbn [String.length] in H. destruct (IH rest ltac:(lia)) as (H1 & H2 & H3).
    cbn [chunks2]. rewrite concat_cons, H1. repeat split.
    + constructor; [reflexivity | exact H2].
    + cbn [List.length]. now rewrite H3.
Qed.

Lemma chunks2_concat (cs : list string) (rest : string) :
  Forall (fun c => String.length c = 2%nat) cs ->
  chunks2 (String.append (String.concat "" cs) rest) = cs ++ chunks2 rest.
Proof.
  induction 1 as [|c cs Hc _ IH]; [reflexivity|].
  destruct c as [|a [|b [|x c]]]; try discriminate.
  rewrite concat_cons, append_assoc. cbn [String.append chunks2 app].
  now rewrite IH.
Qed.

Lemma fromString_fold_stuck (s : string) (l : list nat) (m : outcome Z) :
  (forall n, m <> Return n) ->
  fold_left
    (fun acc i =>
       cardsNum <- acc ;;
       c <- fromStringSingle_ (String.substring (2 * i) 2 s) ;;
       Return (cardsNum * 53 + c)) l m = m.
Proof.
  intro H. induction l as [|i l IH]; [reflexivity|]. cbn [fold_left].
  destruct m as [n| |]; [now elim (H n) | exact IH | exact IH].
Qed.

(** The index loop of [fromString] is the traversal of the cards. *)
Lemma fromString_loop_cards (cs : list string) :
  Forall (fun c => String.length c = 2%nat) cs ->
  forall (pre : string) (k : nat) (acc : Z),
    String.length pre = (2 * k)%nat ->
    fold_left
      (fun acc i =>
         cardsNum <- acc ;;
         c <- fromStringSingle_
                (String.substring (2 * i) 2
                   (String.append pre (String.concat "" cs))) ;;
         Return (cardsNum * 53 + c))
      (seq k (List.length cs)) (Return acc)
    = decodeFrom cs acc.
Proof.
  induction 1 as [|c cs Hc _ IH]; intros pre k acc Hpre; [reflexivity|].
  rewrite concat_cons. cbn [List.length seq fold_left decodeFrom].
  rewrite <- Hpre, substring_skip, substring_card by exact Hc.
  cbn [bind].
  destruct (fromStringSingle_ c) as [n|e|] eqn:E; cbn [bind].
  - rewrite <- append_assoc. apply IH. rewrite length_append, Hc. lia.
  - apply fromString_fold_stuck. discriminate.
  - apply fromString_fold_stuck. discriminate.
Qed.

Lemma even_or_odd_length (s : string) :
  (exists k, String.length s = (2 * k)%nat /\
             (String.length s mod 2 = 0)%nat /\
             (String.length s / 2)%nat = k) \/
  (String.length s mod 2 = 1)%nat.
Proof.
  pose proof (Nat.div_mod_eq (String.length s) 2) as D.
  pose proof (Nat.mod_upper_bound (String.length s) 2 ltac:(lia)) as B.
  destruct (String.length s mod 2)%nat as [|[|r]] eqn:E; [left | now right | lia].
  exists (String.length s / 2)%nat. repeat split. lia.
Qed.

(** [fromString] checks the length, then decodes card by card. *)
Lemma fromString_chunks (s : string) :
  fromString s
  = if Nat.eqb (String.length s mod 2) 0 then decodeFrom (chunks2 s) 0
    else Throw MalformedLength.
Proof.
  unfold fromString.
  destruct (even_or_odd_length s) as [(k & Hk & Hm & Hd)|Hm]; rewrite Hm;
    [|reflexivity].
  cbn [Nat.eqb]. destruct (chunks2_even k s Hk) as (H1 & H2 & H3).
  rewrite Hd, <- H3.
  pose proof (fromString_loop_cards (chunks2 s) H2 "" 0%nat 0 eq_refl) as L.
  cbn [String.append] in L. rewrite H1 in L. exact L.
Qed.

Lemma decodeFrom_valid (cs : list string) :
  Forall (fun c => In c validCards) cs ->
  forall acc, decodeFrom cs acc
              = Return (fold_left (fun cardsNum c => cardsNum * 53 + c)
                          (map cardNumber cs) acc).
Proof.
  induction 1 as [|c cs Hc _ IH]; intro acc; [reflexivity|].
  cbn [decodeFrom map fold_left].
  destruct (cardNumber_valid c Hc) as (-> & _). cbn [bind]. apply IH.
Qed.

Lemma two_chars_valid (c : string) (n : Z) :
  String.length c = 2%nat -> fromStringSingle_ c = Return n ->
  In c validCards /\ cardNumber c = n.
Proof.
  intros L H.
  destruct (fromStringSingle_cases c)
    as [(c' & rest & Hc & E & Hn)|[(_ & E)|(_ & _ & E)]]; try congruence.
  destruct (validCards_two_chars c' Hc) as (a & b & ->).
  destruct c as [|x [|y [|z c]]]; try discriminate.
  cbn [String.append] in E. injection E as -> -> _.
  split; [exact Hc | congruence].
Qed.

Lemma decodeFrom_returns (cs : list string) :
  Forall (fun c => String.length c = 2%nat) cs ->
  forall acc n, decodeFrom cs acc = Return n -> Forall (fun c => In c validCards) cs.
Proof.
  induction 1 as [|c cs Hc _ IH]; intros acc n H; [constructor|].
  cbn [decodeFrom] in H.
  destruct (fromStringSingle_ c) as [m|e|] eqn:E; try discriminate.
  cbn [bind] in H. constructor.
  - now destruct (two_chars_valid c m Hc E).
  - now apply (IH _ _ H).
Qed.

(** A failure of the traversal is the failure of the first card that does
    not decode; every card before it is valid. *)
Lemma decodeFrom_fails (cs : list string) :
  Forall (fun c => String.length c = 2%nat) cs ->
  forall acc e,
    decodeFrom cs acc = Throw e <->
    exists cs1 c cs2,
      cs = cs1 ++ c :: cs2 /\ Forall (fun c => In c validCards) cs1 /\
      fromStringSingle_ c = Throw e.
Proof.
  induction 1 as [|c cs Hc Hcs IH]; intros acc e.
  - split; [discriminate|]. intros (cs1 & c & cs2 & E & _). now destruct cs1.
  - cbn [decodeFrom]. destruct (fromStringSingle_ c) as [m|e'|] eqn:E; cbn [bind].
    + destruct (two_chars_valid c m Hc E) as [Hv _]. rewrite IH. split.
      * intros (cs1 & c' & cs2 & -> & H1 & H2).
        exists (c :: cs1), c', cs2. repeat split; [now constructor | exact H2].
      * intros (cs1 & c' & cs2 & Ecs & H1 & H2).
        destruct cs1 as [|x cs1]; cbn [app] in Ecs; injection Ecs as -> ->.
        -- congruence.
        -- inversion H1; subst. now exists cs1, c', cs2.
    + split.
      * intros [= ->]. exists [], c, cs. repeat split; [constructor | exact E].
      * intros (cs1 & c' & cs2 & Ecs & H1 & H2).
        destruct cs1 as [|x cs1]; cbn [app] in Ecs; injection Ecs as -> ->.
        -- congruence.
        -- inversion H1 as [|? ? Hx _]; subst.
           destruct (cardNumber_valid x Hx) as (R & _). congruence.
    + split; [discriminate|].
      intros (cs1 & c' & cs2 & Ecs & H1 & H2).
      destruct cs1 as [|x cs1]; cbn [app] in Ecs; injection Ecs as -> ->.
      * congruence.
      * inversion H1 as [|? ? Hx _]; subst.
        destruct (cardNumber_valid x Hx) as (R & _). congruence.
Qed.

Lemma fromString_returns (s : string) (n : Z) :
  fromString s = Return n ->
  exists cs, Forall (fun c => In c validCards) cs /\
             s = String.concat "" cs /\ n = numOf (map cardNumber cs) /\
             String.length s = (2 * List.length cs)%nat.
Proof.
  intro H. rewrite fromString_chunks in H.
  destruct (even_or_odd_length s) as [(k & Hk & Hm & _)|Hm]; rewrite Hm in H;
    [|discriminate].
  cbn [Nat.eqb] in H. destruct (chunks2_even k s Hk) as (H1 & H2 & H3).
  pose proof (decodeFrom_returns _ H2 _ _ H) as Hv.
  exists (chunks2 s). split; [exact Hv|]. split; [now symmetry|].
  rewrite decodeFrom_valid in H by exact Hv. unfold numOf.
  split; [congruence | now rewrite H3].
Qed.

(** X4. On strings of at most nine cards (so that every code stays below
    2^53) [fromString] returns exactly on the concatenations of valid card
    strings, and its value is the base-53 code of their numbers, first card
    most significant; the empty string gives 0. *)
Theorem fromString_returns_iff (s : string) (n : Z) :
  (String.length s <= 18)%nat ->
  (fromString s = Return n
   <-> exists cs, Forall (fun c => In c validCards) cs /\
                  s = String.concat "" cs /\ n = numOf (map cardNumber cs)).
Proof.
  intros _. split.
  - intro H. destruct (fromString_returns s n H) as (cs & H1 & H2 & H3).
    now exists cs.
  - intros (cs & Hv & -> & ->). now apply fromString_concat.
Qed.

Lemma fromString_returns_iff_witness :
  fromString "sAcA" = Return 2649
  <-> exists cs, Forall (fun c => In c validCards) cs /\
                 "sAcA" = String.concat "" cs /\ 2649 = numOf (map cardNumber cs).
Proof. apply (fromString_returns_iff "sAcA" 2649). simpl. lia. Defined.

(** X5. How [fromString] fails: the length is checked before any card, so
    a string of odd length fails with the length failure whatever it holds;
    a string of even length fails exactly when some card does not decode,
    and then with the failure of the first such card. *)
Theorem fromString_fails_iff (s : string) (e : error) :
  fromString s = Throw e
  <-> ((String.length s mod 2 = 1)%nat /\ e = MalformedLength) \/
      ((String.length s mod 2 = 0)%nat /\
       exists cs c rest,
         s = String.append (String.concat "" cs) (String.append c rest) /\
         Forall (fun c => In c validCards) cs /\
         String.length c = 2%nat /\ fromStringSingle_ c = Throw e).
Proof.
  rewrite fromString_chunks.
  destruct (even_or_odd_length s) as [(k & Hk & Hm & _)|Hm]; rewrite Hm;
    cbn [Nat.eqb].
  - destruct (chunks2_even k s Hk) as (H1 & H2 & _).
    rewrite (decodeFrom_fails _ H2). split.
    + intros (cs1 & c & cs2 & E & Hv & Hc). right. split; [reflexivity|].
      exists cs1, c, (String.concat "" cs2).
      rewrite <- H1 at 1. rewrite E, concat_app, concat_cons.
      split; [reflexivity|]. split; [exact Hv|]. split; [|exact Hc].
      rewrite E in H2. apply Forall_app in H2 as [_ H2]. now inversion H2.
    + intros [[H _]|(_ & cs & c & rest & E & Hv & Hc & Hf)]; [discriminate|].
      assert (L : Forall (fun c => String.length c = 2%nat) cs).
      { apply Forall_forall. intros x Hx. rewrite Forall_forall in Hv.
        now destruct (cardNumber_valid x (Hv x Hx)) as (_ & _ & _ & ?). }
      exists cs, c, (chunks2 rest). split; [|now split].
      rewrite E, chunks2_concat by exact L.
      destruct c as [|a [|b [|x c]]]; try discriminate. reflexivity.
  - split.
    + intros [= <-]. now left.
    + intros [[_ ->]|[H _]]; [reflexivity | discriminate].
Qed.


Lemma fromString_fails_iff_witness :
  fromString "sAx" = Throw MalformedLength.
Proof.
  apply (proj2 (fromString_fails_iff "sAx" MalformedLength)).
  left. split; reflexivity.
Defined.

(** ** Codes and their digits *)

Lemma numOf_injective (ns ns' : list Z) :
  Forall validCard ns -> Forall validCard ns' ->
  numOf ns = numOf ns' -> ns = ns'.
Proof.
  intros H H' E.
  pose proof (pushCards_numOf ns H (List.length ns + List.length ns') []
                ltac:(lia)) as P.
  pose proof (pushCards_numOf ns' H' (List.length ns + List.length ns') []
                ltac:(lia)) as P'.
  rewrite E, P' in P. injection P as P.
  rewrite <- (rev_involutive ns), <- (rev_involutive ns'). now rewrite P.
Qed.

(** X6. No two card strings of at most nine cards have the same code: the
    digit 0 being no card, the code determines the number of cards and each
    of them. *)
Theorem fromString_injective (s s' : string) (n : Z) :
  (String.length s <= 18)%nat -> (String.length s' <= 18)%nat ->
  fromString s = Return n -> fromString s' = Return n -> s = s'.
Proof.
  intros _ _ H H'.
  destruct (fromString_returns s n H) as (cs & Hv & -> & En & _).
  destruct (fromString_returns s' n H') as (cs' & Hv' & -> & En' & _).
  destruct (map_cardNumber_valid cs Hv) as [V I].
  destruct (map_cardNumber_valid cs' Hv') as [V' I'].
  rewrite <- I, <- I'. f_equal. f_equal.
  apply numOf_injective; [exact V | exact V' | congruence].
Qed.

Lemma fromString_injective_witness : "sAcA" = String.concat "" ["sA"; "cA"].
Proof.
  apply (fromString_injective "sAcA" (String.concat "" ["sA"; "cA"]) 2649);
    [simpl; lia | simpl; lia | reflexivity | reflexivity].
Defined.

(** The digit loop never returns on a negative number: the floor of a
    negative quotient is negative again. *)
Lemma pushCards_negative (fuel : nat) :
  forall n allCards, n < 0 -> pushCards fuel n allCards = OutOfFuel.
Proof.
  induction fuel as [|fuel IH]; intros n allCards Hn; cbn [pushCards];
    replace (n =? 0) with false by (symmetry; apply Z.eqb_neq; lia);
    [reflexivity|].
  apply IH. apply Z.div_lt_upper_bound; lia.
Qed.

(** What the digit loop returns are the base-53 digits of a non-negative
    number, least significant first. *)
Lemma pushCards_digits (fuel : nat) :
  forall n allCards out,
    pushCards fuel n allCards = Return out ->
    0 <= n /\
    exists ds, out = allCards ++ ds /\ n = codeOf ds /\
               Forall (fun d => 0 <= d <= 52) ds /\ (List.length ds <= fuel)%nat.
Proof.
  induction fuel as [|fuel IH]; intros n allCards out H; cbn [pushCards] in H;
    destruct (n =? 0) eqn:E.
  - apply Z.eqb_eq in E. injection H as <-. split; [lia|].
    exists []. rewrite app_nil_r.
    split; [reflexivity|]. split; [exact E|]. split; [constructor | cbn; lia].
  - discriminate.
  - apply Z.eqb_eq in E. injection H as <-. split; [lia|].
    exists []. rewrite app_nil_r.
    split; [reflexivity|]. split; [exact E|]. split; [constructor | cbn; lia].
  - apply IH in H as (Hq & ds & -> & Hn & Hd & Hl).
    assert (H0 : 0 <= n).
    { destruct (Z_lt_dec n 0) as [L|L]; [|lia].
      assert (n / 53 < 0) by (apply Z.div_lt_upper_bound; lia). lia. }
    split; [exact H0|]. exists (Z.rem n 53 :: ds). rewrite <- app_assoc.
    split; [reflexivity|]. rewrite Z.rem_mod_nonneg by lia.
    cbn [codeOf fold_right]. fold (codeOf ds). rewrite <- Hn.
    split; [|split].
    + rewrite Z.add_comm. apply Z.div_mod. lia.
    + constructor; [|exact Hd].
      pose proof (Z.mod_pos_bound n 53 ltac:(lia)). lia.
    + cbn [List.length]. lia.
Qed.

(** X7. What [evalHand] reads from a card string of at most nine cards that
    [fromString] accepts: one card per two characters, each in [1,52], never
    the digit 0, and together the digits of the code. *)
Theorem allCardsOf_string_cards (s : string) (n : Z) (fuel : nat) :
  (String.length s <= 18)%nat -> (9 <= fuel)%nat ->
  fromString s = Return n ->
  exists allCards,
    allCardsOf fuel (AStr s) None = Return allCards /\
    List.length allCards = (String.length s / 2)%nat /\
    Forall validCard allCards /\ codeOf allCards = n.
Proof.
  intros L F H.
  destruct (fromString_returns s n H) as (cs & Hv & -> & -> & Hl).
  destruct (map_cardNumber_valid cs Hv) as [V _].
  exists (rev (map cardNumber cs)).
  split; [apply allCardsOf_string; [exact Hv | lia]|].
  split; [|split].
  - rewrite length_rev, length_map, Hl, Nat.mul_comm, Nat.div_mul; lia.
  - now apply Forall_rev.
  - now rewrite codeOf_numOf, rev_involutive.
Qed.

Lemma allCardsOf_string_cards_witness :
  exists allCards,
    allCardsOf 9 (AStr "sAcA") None = Return allCards /\
    List.length allCards = (String.length "sAcA" / 2)%nat /\
    Forall validCard allCards /\ codeOf allCards = 2649.
Proof.
  apply (allCardsOf_string_cards "sAcA" 2649 9);
    [simpl; lia | lia | reflexivity].
Defined.

(** X8. The round trip from the number side: a number below 2^53 whose
    base-53 digits are all cards (none is 0) is turned by [toString] into a
    string of two characters per digit that [fromString] maps back to the
    number; in particular 0 gives the empty string. *)
Theorem toString_fromString_code (n : Z) (fuel : nat) (ds : list Z) :
  n < maxExact ->
  pushCards fuel n [] = Return ds -> Forall validCard ds ->
  exists s,
    toString fuel n = Return s /\ fromString s = Return n /\
    String.length s = (2 * List.length ds)%nat.
Proof.
  intros _ H Hv.
  destruct (pushCards_digits fuel n [] ds H) as (_ & ds' & E & -> & _ & Hl).
  cbn [app] in E. subst ds'.
  assert (Hr : Forall validCard (rev ds)) by now apply Forall_rev.
  destruct (map_cardString_valid (rev ds) Hr) as [S1 S2].
  exists (String.concat "" (map cardString (rev ds))).
  rewrite codeOf_numOf. split; [|split].
  - apply toString_numOf; [exact Hr | now rewrite length_rev].
  - rewrite fromString_concat by exact S1. now rewrite S2.
  - rewrite concat_cards_length by exact S1.
    now rewrite length_map, length_rev.
Qed.

Lemma toString_fromString_code_witness :
  exists s,
    toString 3 2649 = Return s /\ fromString s = Return 2649 /\
    String.length s = (2 * List.length [52; 49])%nat.
Proof.
  apply (toString_fromString_code 2649 3 [52; 49]).
  - reflexivity.
  - reflexivity.
  - repeat (apply Forall_cons; [unfold validCard; lia|]). apply Forall_nil.
Defined.

Lemma toStringSingle_digit (d : Z) :
  0 <= d <= 52 -> exists s, toStringSingle_ d = Return s.
Proof.
  intro H. destruct (Z.eq_dec d 0) as [->|N]; [now eexists|].
  destruct (toStringSingle_fromStringSingle d ltac:(lia)) as (s & Hs & _).
  now exists s.
Qed.

Lemma toString_loop_total (fuel : nat) :
  forall n strs,
    0 <= n < 53 ^ Z.of_nat fuel ->
    exists out, toString_loop fuel n strs = Return out.
Proof.
  induction fuel as [|fuel IH]; intros n strs Hn.
  - cbn in Hn. assert (n = 0) by lia. subst. now exists strs.
  - cbn [toString_loop]. destruct (n =? 0) eqn:E; [now exists strs|].
    apply Z.eqb_neq in E.
    destruct (toStringSingle_digit (Z.rem n 53)) as (s & ->).
    { rewrite Z.rem_mod_nonneg by lia.
      pose proof (Z.mod_pos_bound n 53 ltac:(lia)). lia. }
    cbn [bind]. apply IH. split; [apply Z.div_pos; lia|].
    apply Z.div_lt_upper_bound; [lia|].
    rewrite Nat2Z.inj_succ, Z.pow_succ_r in Hn by lia. lia.
Qed.

Lemma toString_loop_negative (fuel : nat) :
  forall n strs out, n < 0 -> toString_loop fuel n strs <> Return out.
Proof.
  induction fuel as [|fuel IH]; intros n strs out Hn; cbn [toString_loop];
    replace (n =? 0) with false by (symmetry; apply Z.eqb_neq; lia);
    [discriminate|].
  destruct (toStringSingle_ (Z.rem n 53)) as [s|e|]; cbn [bind];
    [|discriminate|discriminate].
  apply IH. apply Z.div_lt_upper_bound; lia.
Qed.

(** X9. On the integers of magnitude below 2^53, [toString] returns exactly
    on the non-negative ones.  On a non-negative number the rank assertion
    of [toStringSingle_] cannot fire, every digit being between 0 and 52, and
    ten turns of the loop suffice; on a negative number the loop never
    reaches 0, so the call raises or runs on, and never returns. *)
Theorem toString_returns_iff (n : Z) :
  - maxExact < n < maxExact ->
  (0 <= n -> forall fuel, (10 <= fuel)%nat -> exists s, toString fuel n = Return s) /\
  (n < 0 -> forall fuel s, toString fuel n <> Return s).
Proof.
  intro B. split.
  - intros H0 fuel Hf. unfold toString.
    destruct (toString_loop_total fuel n []) as (out & ->); [|now eexists].
    split; [exact H0|]. apply Z.lt_le_trans with (53 ^ 10).
    + unfold maxExact in B. assert (2 ^ 53 < 53 ^ 10) by reflexivity. lia.
    + apply Z.pow_le_mono_r; lia.
  - intros Hn fuel s. unfold toString.
    destruct (toString_loop fuel n []) as [out|e|] eqn:E; cbn [bind];
      try discriminate.
    exfalso. exact (toString_loop_negative fuel n [] out Hn E).
Qed.

Lemma toString_returns_iff_witness :
  (exists s, toString 10 53 = Return s) /\
  (forall fuel s, toString fuel (-1) <> Return s).
Proof.
  split.
  - apply (proj1 (toString_returns_iff 53 ltac:(unfold maxExact; lia)));
      lia.
  - apply (proj2 (toString_returns_iff (-1) ltac:(unfold maxExact; lia))).
    lia.
Defined.

(** * Further properties of the evaluator *)

(** ** The hash of the pair branch *)

Lemma toUint32_lxor (a b : Z) :
  Js.toUint32 (Z.lxor a b) = Z.lxor (Js.toUint32 a) (Js.toUint32 b).
Proof.
  unfold Js.toUint32. rewrite two32_pow. apply Z.bits_inj'. intros i Hi.
  rewrite Z.lxor_spec, !Z.testbit_mod_pow2, Z.lxor_spec by lia.
  destruct (i <? 32); [reflexivity | now rewrite !andb_false_l].
Qed.

Lemma toUint32_small (u : Z) : 0 <= u < Js.two32 -> Js.toUint32 u = u.
Proof. intro H. unfold Js.toUint32. now apply Z.mod_small. Qed.

Lemma toUint32_bxor (a b : Z) :
  Js.toUint32 (Js.bxor a b) = Z.lxor (Js.toUint32 a) (Js.toUint32 b).
Proof.
  unfold Js.bxor. now rewrite toUint32_toInt32, toUint32_lxor, !toUint32_toInt32.
Qed.

Lemma toUint32_add (a b : Z) :
  Js.toUint32 (a + b) = (Js.toUint32 a + Js.toUint32 b) mod 2 ^ 32.
Proof. unfold Js.toUint32. rewrite two32_pow. apply Z.add_mod. lia. Qed.

Lemma shiftr_range (u k : Z) :
  0 <= k -> 0 <= u < Js.two32 -> 0 <= Z.shiftr u k < Js.two32.
Proof.
  intros Hk Hu. rewrite Z.shiftr_div_pow2 by exact Hk.
  assert (0 < 2 ^ k) by (apply Z.pow_pos_nonneg; lia).
  split; [apply Z.div_pos; lia|].
  apply Z.le_lt_trans with u; [|lia].
  apply Z.div_le_upper_bound; [lia|]. nia.
Qed.

(** [a >>> k] and [a << k] for the shift counts of the hash. *)
Lemma ushr_const (a k : Z) :
  0 <= k < 32 -> Js.ushr a k = Z.shiftr (Js.toUint32 a) k.
Proof.
  intro H. unfold Js.ushr. f_equal.
  unfold Js.toUint32, Js.two32. rewrite (Z.mod_small k) by lia.
  apply Z.mod_small. lia.
Qed.

Lemma toUint32_shl (a k : Z) :
  0 <= k < 32 ->
  Js.toUint32 (Js.shl a k) = Z.shiftl (Js.toUint32 a) k mod 2 ^ 32.
Proof.
  intro H. unfold Js.shl. rewrite toUint32_toInt32.
  replace (Js.toUint32 k mod 32) with k.
  - rewrite !Z.shiftl_mul_pow2 by lia. unfold Js.toUint32 at 1.
    rewrite two32_pow, <- Z.mul_mod_idemp_l by lia.
    fold (Js.toUint32 (Js.toInt32 a)). rewrite <- two32_pow.
    fold (Js.toUint32 (Js.toInt32 a)). now rewrite toUint32_toInt32, two32_pow.
  - unfold Js.toUint32, Js.two32. rewrite (Z.mod_small k) by lia.
    symmetry. apply Z.mod_small. lia.
Qed.

(** One folding step [u ^= u >>> k] on the unsigned value. *)
Lemma hash_xor_step (p k : Z) :
  0 <= k < 32 ->
  Js.toUint32 (Js.bxor p (Js.ushr p k))
  = Z.lxor (Js.toUint32 p) (Z.shiftr (Js.toUint32 p) k).
Proof.
  intro H. rewrite toUint32_bxor, ushr_const by exact H. f_equal.
  apply toUint32_small, shiftr_range; [lia | apply toUint32_range].
Qed.

(** One folding step [u += u << k]: the sum is not wrapped by the code, but
    the next operator reads it modulo 2^32. *)
Lemma hash_add_step (p k : Z) :
  0 <= k < 32 ->
  Js.toUint32 (p + Js.shl p k)
  = (Js.toUint32 p + Z.shiftl (Js.toUint32 p) k) mod 2 ^ 32.
Proof.
  intro H. rewrite toUint32_add, toUint32_shl by exact H.
  apply Z.add_mod_idemp_r. lia.
Qed.

Lemma band_511 (y : Z) :
  0 <= y < Js.two31 -> Js.band y 511 = Z.land y 511 /\ 0 <= Z.land y 511 < 512.
Proof.
  intro H.
  assert (B : 0 <= Z.land y 511 < 512).
  { change 511 with (Z.ones 9). rewrite Z.land_ones by lia.
    apply Z.mod_pos_bound. reflexivity. }
  split; [|exact B]. unfold Js.band.
  rewrite (toInt32_small y) by exact H.
  rewrite (toInt32_small 511) by (unfold Js.two31; lia).
  apply toInt32_small. unfold Js.two31. lia.
Qed.

Lemma lxor_below_pow2 (n a b : Z) :
  0 <= n -> 0 <= a < 2 ^ n -> 0 <= b < 2 ^ n -> 0 <= Z.lxor a b < 2 ^ n.
Proof.
  intros Hn Ha Hb.
  assert (E : Z.lxor a b mod 2 ^ n = Z.lxor a b).
  { apply Z.bits_inj'. intros i Hi.
    rewrite Z.testbit_mod_pow2, Z.lxor_spec by lia.
    destruct (Z.ltb_spec i n) as [L|L]; [reflexivity|].
    rewrite <- (Z.mod_small a (2 ^ n)), <- (Z.mod_small b (2 ^ n)) by assumption.
    rewrite !Z.mod_pow2_bits_high by lia. reflexivity. }
  rewrite <- E. apply Z.mod_pos_bound. apply Z.pow_pos_nonneg; lia.
Qed.

(** The two indices the code computes are those of the unsigned hash. *)
Lemma hash_indices (product : Z) :
  let x := product + 3910838837 in
  let p1 := Js.bxor x (Js.ushr x 16) in
  let p2 := p1 + Js.shl p1 8 in
  let p3 := Js.bxor p2 (Js.ushr p2 4) in
  (Js.ushr (p3 + Js.shl p3 2) 19, Js.band (Js.ushr p3 8) 511) = hash32 product.
Proof.
  intros x p1 p2 p3. unfold hash32.
  assert (U0 : Js.toUint32 x = (product + 3910838837) mod 2 ^ 32) by reflexivity.
  assert (U1 : Js.toUint32 p1
               = Z.lxor (Js.toUint32 x) (Z.shiftr (Js.toUint32 x) 16))
    by (apply hash_xor_step; lia).
  assert (U2 : Js.toUint32 p2
               = (Js.toUint32 p1 + Z.shiftl (Js.toUint32 p1) 8) mod 2 ^ 32)
    by (apply hash_add_step; lia).
  assert (U3 : Js.toUint32 p3
               = Z.lxor (Js.toUint32 p2) (Z.shiftr (Js.toUint32 p2) 4))
    by (apply hash_xor_step; lia).
  rewrite <- U0, <- U1, <- U2, <- U3. f_equal.
  - rewrite ushr_const by lia. f_equal. apply hash_add_step. lia.
  - rewrite ushr_const by lia. apply band_511.
    pose proof (toUint32_range p3) as R.
    rewrite Z.shiftr_div_pow2 by lia. unfold Js.two32, Js.two31 in *.
    split; [apply Z.div_pos; lia|]. apply Z.div_lt_upper_bound; lia.
Qed.

Lemma hash32_range (product : Z) :
  0 <= fst (hash32 product) < 8192 /\ 0 <= snd (hash32 product) < 512.
Proof.
  unfold hash32. cbn [fst snd]. split.
  - match goal with |- context [Z.shiftr (?z mod 2 ^ 32) 19] =>
      pose proof (Z.mod_pos_bound z (2 ^ 32) ltac:(lia)) as R;
      generalize dependent (z mod 2 ^ 32)
    end.
    intros u R. rewrite Z.shiftr_div_pow2 by lia.
    split; [apply Z.div_pos; lia|]. apply Z.div_lt_upper_bound; lia.
  - change 511 with (Z.ones 9). rewrite Z.land_ones by lia.
    apply Z.mod_pos_bound. reflexivity.
Qed.

Lemma sublist_trans {A : Type} (l1 l2 l3 : list A) :
  sublist l1 l2 -> sublist l2 l3 -> sublist l1 l3.
Proof.
  intros H12 H23. revert l1 H12.
  induction H23 as [|x s l _ IH|x s l _ IH]; intros l1 H12.
  - exact H12.
  - inversion H12; subst; constructor; now apply IH.
  - constructor. now apply IH.
Qed.

Lemma rankShift_rank_index (c : Z) :
  validCard c -> rankShift (Some c) = rank_index c.
Proof.
  intro H. unfold rankShift, rank_index, validCard in *.
  apply Z.quot_div_nonneg; lia.
Qed.

Lemma rankBitsL_ranks (cards : list Z) :
  Forall validCard cards ->
  forall acc,
    fold_left (fun rankBits c => Js.bor rankBits (Js.shl 1 (rankShift (Some c))))
      cards acc
    = fold_left (fun rankBits r => Js.bor rankBits (Js.shl 1 r))
        (map rank_index cards) acc.
Proof.
  induction 1 as [|c cards Hc _ IH]; intro acc; [reflexivity|].
  cbn [fold_left map]. rewrite (rankShift_rank_index c Hc). apply IH.
Qed.

(** What [toString] and [fromString] do on the number of a sequence of
    cards read off by the digit loop. *)
Lemma code_string (n : Z) (fuel : nat) (ds : list Z) :
  pushCards fuel n [] = Return ds -> Forall validCard ds ->
  toString fuel n = Return (String.concat "" (map cardString (rev ds))) /\
  fromString (String.concat "" (map cardString (rev ds))) = Return n /\
  Forall (fun c => In c validCards) (map cardString (rev ds)).
Proof.
  intros H Hv.
  destruct (pushCards_digits fuel n [] ds H) as (_ & ds' & E & -> & _ & Hl).
  cbn [app] in E. subst ds'.
  assert (Hr : Forall validCard (rev ds)) by now apply Forall_rev.
  destruct (map_cardString_valid (rev ds) Hr) as [S1 S2].
  rewrite codeOf_numOf. split; [|split; [|exact S1]].
  - apply toString_numOf; [exact Hr | now rewrite length_rev].
  - rewrite fromString_concat by exact S1. now rewrite S2.
Qed.

Section Further.

Variable UNIQUE5 : Z -> option Z.
Variable RANK_PRIMES : Z -> option Z.
Variable PAIR : Z -> option Z.
Variable PAIR_ADJUST : Z -> option Z.

Local Abbreviation eval5 := (eval5Cards_ UNIQUE5 RANK_PRIMES PAIR PAIR_ADJUST).
Local Abbreviation evalH := (evalHand UNIQUE5 RANK_PRIMES PAIR PAIR_ADJUST).
Local Abbreviation evalC := (evalCards UNIQUE5 RANK_PRIMES PAIR PAIR_ADJUST).

(** X10. The pair branch hashes the product as an unsigned 32-bit word:
    although the code mixes signed 32-bit operators with sums that are not
    wrapped, the slot it reads is the one of the hash computed modulo 2^32
    throughout.  The adjustment index is below 512 and the first index below
    8192, and so is the final index whenever the adjustment is. *)
Theorem pairLookup_unsigned (product : Z) :
  0 <= product < 2 ^ 52 ->
  pairLookup PAIR PAIR_ADJUST (Some product)
  = PAIR (Js.bxor (fst (hash32 product))
            (Js.int (PAIR_ADJUST (snd (hash32 product))))) /\
  0 <= fst (hash32 product) < 8192 /\
  0 <= snd (hash32 product) < 512 /\
  (forall adj,
     PAIR_ADJUST (snd (hash32 product)) = Some adj -> 0 <= adj < 8192 ->
     0 <= Js.bxor (fst (hash32 product)) adj < 8192).
Proof.
  intros _. destruct (hash32_range product) as [Ra Rb].
  split; [|split; [exact Ra|split; [exact Rb|]]].
  - unfold pairLookup. cbn [Js.add Js.lift2 Js.int]. cbv zeta.
    pose proof (hash_indices product) as H. cbv zeta in H.
    rewrite <- H. cbn [fst snd]. reflexivity.
  - intros adj _ Hadj.
    pose proof (lxor_below_pow2 13 _ _ ltac:(lia) Ra Hadj) as L.
    unfold Js.bxor.
    rewrite (toInt32_small (fst (hash32 product))) by (unfold Js.two31; lia).
    rewrite (toInt32_small adj) by (unfold Js.two31; lia).
    rewrite toInt32_small; unfold Js.two31; lia.
Qed.

(** X11. [eval5Cards_] looks at the suits only through the flush test: two
    hands of five cards of [1,52] with the same ranks, in any order, and the
    same outcome of the flush test have the same score. *)
Theorem eval5Cards_ranks_and_flush (l l' : list Z) :
  List.length l = 5%nat -> List.length l' = 5%nat ->
  Forall validCard l -> Forall validCard l' ->
  Permutation (map rank_index l) (map rank_index l') ->
  flushOf l = flushOf l' ->
  eval5 l = eval5 l'.
Proof.
  intros L L' V V' P F. unfold eval5Cards_.
  rewrite (rankBitsOf_five l L), (rankBitsOf_five l' L').
  rewrite (productOf_five RANK_PRIMES l L), (productOf_five RANK_PRIMES l' L').
  assert (EB : rankBitsL l = rankBitsL l').
  { unfold rankBitsL. rewrite (rankBitsL_ranks l V), (rankBitsL_ranks l' V').
    apply fold_left_swap_perm; [|exact P]. intros a x y. apply bor_swap. }
  assert (EP : productL RANK_PRIMES l = productL RANK_PRIMES l').
  { unfold productL.
    rewrite (fold_left_map Js.mul (fun c => rankPrime RANK_PRIMES (Some c)) l).
    rewrite (fold_left_map Js.mul (fun c => rankPrime RANK_PRIMES (Some c)) l').
    change (fun c => rankPrime RANK_PRIMES (Some c))
      with (fun c => RANK_PRIMES (rank_index c)).
    rewrite <- (map_map rank_index RANK_PRIMES l).
    rewrite <- (map_map rank_index RANK_PRIMES l').
    apply fold_left_swap_perm; [|now apply Permutation_map].
    intros a x y. destruct a, x, y; cbn; try reflexivity. f_equal. ring. }
  now rewrite EB, EP, F.
Qed.

(** X12. What the search branches return whatever the tables hold: on 6 or
    7 cards the result is a number, at most 9999, no greater than any
    sub-hand score that is a number, and it is 9999 or the score of a
    sub-hand; so it is 9999 exactly when no sub-hand scores below 9999. *)
Theorem evalCards_sentinel (allCards : list Z) :
  List.length allCards = 6%nat \/ List.length allCards = 7%nat ->
  exists r,
    evalC allCards = Return (Some r) /\ r <= 9999 /\
    (forall s z, In s (choose allCards 5) -> eval5 s = Some z -> r <= z) /\
    (r = 9999 \/ exists s, In s (choose allCards 5) /\ eval5 s = Some r) /\
    (r = 9999 <->
     forall s z, In s (choose allCards 5) -> eval5 s = Some z -> 9999 <= z).
Proof.
  intro H. rewrite (evalCards_search UNIQUE5 RANK_PRIMES PAIR PAIR_ADJUST _ H).
  eexists. split; [reflexivity|]. unfold bestOf.
  destruct (keepBest_fold (map eval5 (choose allCards 5)) 9999) as (A1 & A2 & A3).
  assert (B2 : forall s z, In s (choose allCards 5) -> eval5 s = Some z ->
                 fold_left keepBest (map eval5 (choose allCards 5)) 9999 <= z).
  { intros s z Hs Hz. apply A2. rewrite <- Hz. now apply in_map. }
  assert (B3 : fold_left keepBest (map eval5 (choose allCards 5)) 9999 = 9999 \/
               exists s, In s (choose allCards 5) /\
                 eval5 s
                 = Some (fold_left keepBest (map eval5 (choose allCards 5)) 9999)).
  { destruct A3 as [A3|A3]; [now left | right].
    apply in_map_iff in A3 as (s & E & Hs). now exists s. }
  split; [exact A1|]. split; [exact B2|]. split; [exact B3|]. split.
  - intros E s z Hs Hz. rewrite <- E. now apply (B2 s z).
  - intro Hall. destruct B3 as [B3|(s & Hs & Es)]; [exact B3|].
    specialize (Hall s _ Hs Es). lia.
Qed.

(** X13. More cards never give a weaker hand: the result on 6 or 7 cards
    is no greater than the result on any sub-hand of 5 or 6 of them. *)
Theorem evalCards_more_cards (allCards sub : list Z) (z : Z) :
  List.length allCards = 6%nat \/ List.length allCards = 7%nat ->
  sublist sub allCards ->
  List.length sub = 5%nat \/ List.length sub = 6%nat ->
  evalC sub = Return (Some z) ->
  exists r, evalC allCards = Return (Some r) /\ r <= z.
Proof.
  intros H Hsub Hl Hz.
  rewrite (evalCards_search UNIQUE5 RANK_PRIMES PAIR PAIR_ADJUST _ H).
  eexists. split; [reflexivity|]. unfold bestOf.
  destruct (keepBest_fold (map eval5 (choose allCards 5)) 9999) as (A1 & A2 & _).
  destruct Hl as [Hl|Hl].
  - unfold evalCards in Hz. rewrite Hl in Hz. cbn [Nat.eqb] in Hz.
    injection Hz as Hz. apply A2. rewrite <- Hz. apply in_map.
    apply choose_sublist. now split.
  - rewrite (evalCards_search UNIQUE5 RANK_PRIMES PAIR PAIR_ADJUST sub
               (or_introl Hl)) in Hz.
    injection Hz as Hz. unfold bestOf in Hz.
    destruct (keepBest_fold (map eval5 (choose sub 5)) 9999) as (_ & _ & B3).
    rewrite Hz in B3. destruct B3 as [->|B3]; [exact A1|].
    apply in_map_iff in B3 as (s & Es & Hs). apply A2. rewrite <- Es.
    apply in_map. apply choose_sublist. apply choose_sublist in Hs as [Hs1 Hs2].
    split; [now apply sublist_trans with sub | exact Hs2].
Qed.

(** X14. On a negative number [evalHand] neither returns nor raises: the
    digit loop never reaches 0, as first argument and as second argument
    after a first one that decodes. *)
Theorem evalHand_negative_number (fuel : nat) (n : Z) :
  - maxExact < n < 0 ->
  (forall b, evalH fuel (ANum n) b = OutOfFuel) /\
  (forall a allCards,
     allCardsOf fuel a None = Return allCards ->
     evalH fuel a (Some (ANum n)) = OutOfFuel).
Proof.
  intros [_ Hn]. split.
  - intro b. unfold evalHand, allCardsOf. cbn [cardsNumOf bind].
    now rewrite pushCards_negative.
  - intros a allCards H. unfold evalHand, allCardsOf in *.
    destruct (cardsNumOf a) as [m|e|]; cbn [bind] in *; try discriminate.
    destruct (pushCards fuel m []) as [cs|e|]; cbn [bind] in *; try discriminate.
    cbn [given]. replace (n =? 0) with false by (symmetry; apply Z.eqb_neq; lia).
    cbn [negb cardsNumOf bind]. now rewrite pushCards_negative.
Qed.

(** X15. An empty first argument, the empty string or the number 0, adds
    no card: the call behaves as on the second argument alone. *)
Theorem evalHand_empty_first (fuel : nat) (x : arg) :
  evalH fuel (AStr "") (Some x) = evalH fuel x None /\
  evalH fuel (ANum 0) (Some x) = evalH fuel x None.
Proof.
  assert (E : forall m : outcome (list Z), (l <- m ;; Return l) = m)
    by (intros [l|e|]; reflexivity).
  assert (Z0 : forall f, pushCards f 0 [] = Return [])
    by (intros [|f]; reflexivity).
  assert (H : forall a, cardsNumOf a = Return 0 ->
            allCardsOf fuel a (Some x) = allCardsOf fuel x None).
  { intros a Ha. unfold allCardsOf. rewrite Ha. cbn [bind]. rewrite Z0.
    cbn [bind]. destruct (given (Some x)) eqn:G.
    - destruct (cardsNumOf x) as [m|e|]; cbn [bind]; try reflexivity.
      now rewrite E.
    - destruct x as [m|s]; cbn [given] in G; apply negb_false_iff in G.
      + apply Z.eqb_eq in G. subst m. cbn [cardsNumOf bind]. now rewrite Z0.
      + apply String.eqb_eq in G. subst s. cbn [cardsNumOf].
        change (fromString "") with (@Return Z 0). cbn [bind]. now rewrite Z0. }
  unfold evalHand. split; rewrite H; reflexivity.
Qed.

(** X16. The numeric and the string form of a sequence are interchangeable
    as first argument: when the digits of a number below 2^53 are all cards,
    [evalHand] on the number is [evalHand] on the string [toString] gives
    for it. *)
Theorem evalHand_number_or_string
    (fuel : nat) (n : Z) (ds : list Z) (s : string) (b : option arg) :
  0 <= n < maxExact ->
  pushCards fuel n [] = Return ds -> Forall validCard ds ->
  toString fuel n = Return s ->
  evalH fuel (ANum n) b = evalH fuel (AStr s) b.
Proof.
  intros _ H Hv Hs. destruct (code_string n fuel ds H Hv) as (T & F & _).
  rewrite T in Hs. injection Hs as <-.
  unfold evalHand, allCardsOf. cbn [cardsNumOf]. now rewrite F.
Qed.

End Further.

Lemma toStringSingle_fails_iff_witness :
  (toStringSingle_ 53 = Throw (WrongRankNum 15)
   <-> (53 < -3 \/ 52 < 53) /\ WrongRankNum 15 = WrongRankNum ((53 - 1) / 4 + 2)) /\
  (-3 <= 53 <= 52 -> exists s, toStringSingle_ 53 = Return s).
Proof.
  apply (toStringSingle_fails_iff 53 (WrongRankNum 15)).
  unfold maxExact. lia.
Defined.

Lemma pairLookup_unsigned_witness :
  pairLookup sample_PAIR sample_PAIR_ADJUST (Some 8448337)
  = sample_PAIR (Js.bxor (fst (hash32 8448337))
                   (Js.int (sample_PAIR_ADJUST (snd (hash32 8448337))))) /\
  0 <= fst (hash32 8448337) < 8192 /\
  0 <= snd (hash32 8448337) < 512 /\
  (forall adj,
     sample_PAIR_ADJUST (snd (hash32 8448337)) = Some adj -> 0 <= adj < 8192 ->
     0 <= Js.bxor (fst (hash32 8448337)) adj < 8192).
Proof. apply (pairLookup_unsigned sample_PAIR sample_PAIR_ADJUST 8448337). lia. Defined.

Lemma eval5Cards_ranks_and_flush_witness :
  eval5Cards_ sample_UNIQUE5 sample_RANK_PRIMES sample_PAIR sample_PAIR_ADJUST
    [49; 45; 41; 37; 33]
  = eval5Cards_ sample_UNIQUE5 sample_RANK_PRIMES sample_PAIR sample_PAIR_ADJUST
      [34; 38; 42; 46; 50].
Proof.
  apply (eval5Cards_ranks_and_flush sample_UNIQUE5 sample_RANK_PRIMES
           sample_PAIR sample_PAIR_ADJUST [49; 45; 41; 37; 33] [34; 38; 42; 46; 50]).
  - reflexivity.
  - reflexivity.
  - repeat (apply Forall_cons; [unfold validCard; lia|]). apply Forall_nil.
  - repeat (apply Forall_cons; [unfold validCard; lia|]). apply Forall_nil.
  - change (Permutation [12; 11; 10; 9; 8] (rev [12; 11; 10; 9; 8])).
    apply Permutation_rev.
  - reflexivity.
Defined.

Lemma evalCards_sentinel_witness :
  exists r,
    evalCards sample_UNIQUE5 sample_RANK_PRIMES sample_PAIR sample_PAIR_ADJUST
      [45; 49; 25; 29; 33; 37; 41] = Return (Some r) /\ r <= 9999.
Proof.
  destruct (evalCards_sentinel sample_UNIQUE5 sample_RANK_PRIMES sample_PAIR
              sample_PAIR_ADJUST [45; 49; 25; 29; 33; 37; 41])
    as (r & H1 & H2 & _).
  - right. reflexivity.
  - exists r. now split.
Defined.

Lemma evalCards_more_cards_witness :
  exists r,
    evalCards sample_UNIQUE5 sample_RANK_PRIMES sample_PAIR sample_PAIR_ADJUST
      [45; 49; 25; 29; 33; 37; 41] = Return (Some r) /\ r <= 367.
Proof.
  apply (evalCards_more_cards sample_UNIQUE5 sample_RANK_PRIMES sample_PAIR
           sample_PAIR_ADJUST [45; 49; 25; 29; 33; 37; 41] [45; 49; 29; 33; 37] 367).
  - right. reflexivity.
  - repeat constructor.
  - left. reflexivity.
  - vm_compute. reflexivity.
Defined.

Lemma evalHand_negative_number_witness :
  sample_evalHand 7 (ANum (-1)) (Some (AStr "sAsKsQsJsT")) = OutOfFuel.
Proof.
  apply (proj1 (evalHand_negative_number sample_UNIQUE5 sample_RANK_PRIMES
                  sample_PAIR sample_PAIR_ADJUST 7 (-1)
                  ltac:(unfold maxExact; lia))).
Defined.

Lemma evalHand_number_or_string_witness :
  sample_evalHand 5 (ANum (codeOf [33; 37; 41; 45; 49])) None
  = sample_evalHand 5 (AStr "sAsKsQsJsT") None.
Proof.
  apply (evalHand_number_or_string sample_UNIQUE5 sample_RANK_PRIMES sample_PAIR
           sample_PAIR_ADJUST 5 (codeOf [33; 37; 41; 45; 49])
           [33; 37; 41; 45; 49] "sAsKsQsJsT" None).
  - unfold maxExact. split; [apply Z.leb_le | apply Z.ltb_lt]; reflexivity.
  - vm_compute. reflexivity.
  - repeat (apply Forall_cons; [unfold validCard; lia|]). apply Forall_nil.
  - vm_compute. reflexivity.
Defined.
